(** * Face tracking and video recorder page: the [HomePage] component

    A shallow embedding of the orchestration logic of [HomePage]
    (camera stream, periodic face detection, session recording).

    Every callback of the component is a function on an explicit [State]:
    the five [useState] cells, the four refs, and the part of the browser
    the callbacks touch (video elements, media streams, recorders, interval
    timers, pending promises, object URLs, [localStorage], downloads).
    What the browser or React decides (a promise resolves or rejects, an
    interval fires, an effect is re-run, a button is clicked) is an
    [Event]; [step] dispatches an event to the callback it invokes. *)

From Stdlib Require Import ZArith List String Ascii Bool Lia.
From stdpp Require Import base option list strings gmap pretty.

Local Open Scope string_scope.
Local Open Scope list_scope.

(** ** Browser objects *)

(** A [Blob]: its bytes and its MIME type. *)
Record Blob := { blob_bytes : list Byte.byte; blob_type : string }.

(** [blob.size] *)
Definition blob_size (b : Blob) : nat := length (blob_bytes b).

(** [new Blob(parts, { type })]: the parts' bytes, in the array's order. *)
Definition new_Blob (parts : list Blob) (type : string) : Blob :=
  {| blob_bytes := List.concat (map blob_bytes parts); blob_type := type |}.

(** The four networks whose weights [loadModels] loads from [MODEL_URL]. *)
Inductive Net :=
  | tinyFaceDetector | faceLandmark68TinyNet | faceRecognitionNet | ssdMobilenetv1.

Inductive TrackState := TrackLive | TrackEnded.

(** A [MediaStream] is the list of its tracks. *)
Abbreviation MediaStream := (list TrackState).

(** The values a render's closures capture: the five [useState] cells. *)
Record Hooks := {
  cameraOn : bool;
  isRecording : bool;
  videoBlobUrl : option string;
  loadingModels : bool;
  error : option string
}.

(** The [<video>] element.  [onloadedmetadata] holds the render whose
    [startVideo] installed the handler, since the handler reads that
    render's [loadingModels] and [error]. *)
Record HTMLVideoElement := {
  srcObject : option nat;
  paused : bool;
  ended : bool;
  onloadedmetadata : option Hooks
}.

(** A [MediaRecorder]: the stream it records and whether its state is
    ["recording"] (otherwise ["inactive"]). *)
Record MediaRecorder := { rec_stream : nat; rec_recording : bool }.

(** The closure of the [setInterval] callback: the [video] and [canvas]
    elements read once by [startFaceDetection]. *)
Record Timer := { t_video : nat; t_canvas : nat }.

(** ** Component state *)

Record Refs := {
  videoRef : option nat;
  canvasRef : option nat;
  mediaRecorderRef : option nat;
  recordedChunks : list Blob
}.

(** Elements, streams, recorders and timers live in stores and are named by
    their index, so that a closure and a ref can hold the same object.
    [timers !! i = Some None] is an interval that was cleared. *)
Record Dom := {
  videos : list HTMLVideoElement;
  streams : list MediaStream;
  recorders : list MediaRecorder;
  timers : list (option Timer);
  inflight : nat
}.

Record IO := {
  fetches : list Net;
  pendingLoads : nat;
  pendingCamera : list Hooks;
  objectURLs : gmap string Blob;
  pendingReaders : list Blob;
  localStorage : gmap string string;
  downloads : list (string * string)
}.

(** [lastEffect] is the render whose lifecycle effect ran last: its values
    are the dependencies React compares and the closure of the cleanup. *)
Record State := {
  hooks : Hooks;
  refs : Refs;
  dom : Dom;
  io : IO;
  lastEffect : option Hooks
}.

(** *** Field updates *)

Definition upd_hooks (f : Hooks → Hooks) (s : State) : State :=
  {| hooks := f (hooks s); refs := refs s; dom := dom s; io := io s;
     lastEffect := lastEffect s |}.
Definition upd_refs (f : Refs → Refs) (s : State) : State :=
  {| hooks := hooks s; refs := f (refs s); dom := dom s; io := io s;
     lastEffect := lastEffect s |}.
Definition upd_dom (f : Dom → Dom) (s : State) : State :=
  {| hooks := hooks s; refs := refs s; dom := f (dom s); io := io s;
     lastEffect := lastEffect s |}.
Definition upd_io (f : IO → IO) (s : State) : State :=
  {| hooks := hooks s; refs := refs s; dom := dom s; io := f (io s);
     lastEffect := lastEffect s |}.
Definition set_lastEffect (e : option Hooks) (s : State) : State :=
  {| hooks := hooks s; refs := refs s; dom := dom s; io := io s;
     lastEffect := e |}.

Definition setCameraOn (b : bool) : State → State :=
  upd_hooks (λ h, {| cameraOn := b; isRecording := isRecording h;
    videoBlobUrl := videoBlobUrl h; loadingModels := loadingModels h;
    error := error h |}).
Definition setIsRecording (b : bool) : State → State :=
  upd_hooks (λ h, {| cameraOn := cameraOn h; isRecording := b;
    videoBlobUrl := videoBlobUrl h; loadingModels := loadingModels h;
    error := error h |}).
Definition setVideoBlobUrl (u : option string) : State → State :=
  upd_hooks (λ h, {| cameraOn := cameraOn h; isRecording := isRecording h;
    videoBlobUrl := u; loadingModels := loadingModels h;
    error := error h |}).
Definition setLoadingModels (b : bool) : State → State :=
  upd_hooks (λ h, {| cameraOn := cameraOn h; isRecording := isRecording h;
    videoBlobUrl := videoBlobUrl h; loadingModels := b;
    error := error h |}).
Definition setError (e : option string) : State → State :=
  upd_hooks (λ h, {| cameraOn := cameraOn h; isRecording := isRecording h;
    videoBlobUrl := videoBlobUrl h; loadingModels := loadingModels h;
    error := e |}).

Definition set_videoRef (v : option nat) : State → State :=
  upd_refs (λ r, {| videoRef := v; canvasRef := canvasRef r;
    mediaRecorderRef := mediaRecorderRef r;
    recordedChunks := recordedChunks r |}).
Definition set_canvasRef (c : option nat) : State → State :=
  upd_refs (λ r, {| videoRef := videoRef r; canvasRef := c;
    mediaRecorderRef := mediaRecorderRef r;
    recordedChunks := recordedChunks r |}).
Definition set_mediaRecorderRef (m : option nat) : State → State :=
  upd_refs (λ r, {| videoRef := videoRef r; canvasRef := canvasRef r;
    mediaRecorderRef := m; recordedChunks := recordedChunks r |}).
Definition set_recordedChunks (l : list Blob) : State → State :=
  upd_refs (λ r, {| videoRef := videoRef r; canvasRef := canvasRef r;
    mediaRecorderRef := mediaRecorderRef r; recordedChunks := l |}).

Definition upd_videos (f : list HTMLVideoElement → list HTMLVideoElement)
    : State → State :=
  upd_dom (λ d, {| videos := f (videos d); streams := streams d;
    recorders := recorders d; timers := timers d; inflight := inflight d |}).
Definition upd_streams (f : list MediaStream → list MediaStream)
    : State → State :=
  upd_dom (λ d, {| videos := videos d; streams := f (streams d);
    recorders := recorders d; timers := timers d; inflight := inflight d |}).
Definition upd_recorders (f : list MediaRecorder → list MediaRecorder)
    : State → State :=
  upd_dom (λ d, {| videos := videos d; streams := streams d;
    recorders := f (recorders d); timers := timers d;
    inflight := inflight d |}).
Definition upd_timers (f : list (option Timer) → list (option Timer))
    : State → State :=
  upd_dom (λ d, {| videos := videos d; streams := streams d;
    recorders := recorders d; timers := f (timers d);
    inflight := inflight d |}).
Definition set_inflight (n : nat) : State → State :=
  upd_dom (λ d, {| videos := videos d; streams := streams d;
    recorders := recorders d; timers := timers d; inflight := n |}).

Definition upd_fetches (f : list Net → list Net) : State → State :=
  upd_io (λ o, {| fetches := f (fetches o); pendingLoads := pendingLoads o;
    pendingCamera := pendingCamera o; objectURLs := objectURLs o;
    pendingReaders := pendingReaders o; localStorage := localStorage o;
    downloads := downloads o |}).
Definition set_pendingLoads (n : nat) : State → State :=
  upd_io (λ o, {| fetches := fetches o; pendingLoads := n;
    pendingCamera := pendingCamera o; objectURLs := objectURLs o;
    pendingReaders := pendingReaders o; localStorage := localStorage o;
    downloads := downloads o |}).
Definition set_pendingCamera (l : list Hooks) : State → State :=
  upd_io (λ o, {| fetches := fetches o; pendingLoads := pendingLoads o;
    pendingCamera := l; objectURLs := objectURLs o;
    pendingReaders := pendingReaders o; localStorage := localStorage o;
    downloads := downloads o |}).
Definition upd_objectURLs (f : gmap string Blob → gmap string Blob)
    : State → State :=
  upd_io (λ o, {| fetches := fetches o; pendingLoads := pendingLoads o;
    pendingCamera := pendingCamera o; objectURLs := f (objectURLs o);
    pendingReaders := pendingReaders o; localStorage := localStorage o;
    downloads := downloads o |}).
Definition set_pendingReaders (l : list Blob) : State → State :=
  upd_io (λ o, {| fetches := fetches o; pendingLoads := pendingLoads o;
    pendingCamera := pendingCamera o; objectURLs := objectURLs o;
    pendingReaders := l; localStorage := localStorage o;
    downloads := downloads o |}).
Definition upd_localStorage (f : gmap string string → gmap string string)
    : State → State :=
  upd_io (λ o, {| fetches := fetches o; pendingLoads := pendingLoads o;
    pendingCamera := pendingCamera o; objectURLs := objectURLs o;
    pendingReaders := pendingReaders o; localStorage := f (localStorage o);
    downloads := downloads o |}).
Definition upd_downloads (f : list (string * string) → list (string * string))
    : State → State :=
  upd_io (λ o, {| fetches := fetches o; pendingLoads := pendingLoads o;
    pendingCamera := pendingCamera o; objectURLs := objectURLs o;
    pendingReaders := pendingReaders o; localStorage := localStorage o;
    downloads := f (downloads o) |}).

(** ** Browser capabilities the callbacks use *)

(** JavaScript truthiness of a [string | null]: [null] and the empty string
    are falsy. *)
Definition truthy (o : option string) : bool :=
  match o with
  | Some (String _ _) => true
  | _ => false
  end.

(** A [<video>] element as React creates it: no source, paused. *)
Definition new_video : HTMLVideoElement :=
  {| srcObject := None; paused := true; ended := false;
     onloadedmetadata := None |}.

(** [video.srcObject = o]: assigning the source restarts the element's load
    algorithm, which leaves it paused at the start of the new source. *)
Definition assign_srcObject (o : option nat) (ve : HTMLVideoElement)
    : HTMLVideoElement :=
  {| srcObject := o; paused := true; ended := false;
     onloadedmetadata := onloadedmetadata ve |}.

Definition assign_onloadedmetadata (h : option Hooks) (ve : HTMLVideoElement)
    : HTMLVideoElement :=
  {| srcObject := srcObject ve; paused := paused ve; ended := ended ve;
     onloadedmetadata := h |}.

(** The element is paused (by the browser, when removed from the document). *)
Definition video_pause (ve : HTMLVideoElement) : HTMLVideoElement :=
  {| srcObject := srcObject ve; paused := true; ended := ended ve;
     onloadedmetadata := onloadedmetadata ve |}.

(** [video.play()] *)
Definition video_play (ve : HTMLVideoElement) : HTMLVideoElement :=
  {| srcObject := srcObject ve; paused := false; ended := ended ve;
     onloadedmetadata := onloadedmetadata ve |}.

(** [stream.getTracks().forEach(track => track.stop())] *)
Definition stop_tracks (st : MediaStream) : MediaStream :=
  map (λ _, TrackEnded) st.

(** [recorder.stop()]: an inactive recorder ignores it. *)
Definition stop_recorder_state (m : MediaRecorder) : MediaRecorder :=
  {| rec_stream := rec_stream m; rec_recording := false |}.
Definition recorder_stop (r : nat) : State → State :=
  upd_recorders (alter stop_recorder_state r).

(** [setInterval(callback, 100)] returns the new timer's id;
    [clearInterval(id)] cancels it. *)
Definition setInterval (t : Timer) : State → State :=
  upd_timers (λ l, l ++ [Some t]).
Definition clearInterval (i : nat) : State → State :=
  upd_timers (<[i := None]>).

(** [URL.createObjectURL(blob)]: a fresh [blob:] URL naming the blob. *)
Definition next_object_url (s : State) : string :=
  "blob:" +:+ pretty (size (objectURLs (io s))).
Definition createObjectURL (b : Blob) (s : State) : string * State :=
  let url := next_object_url s in
  (url, upd_objectURLs (<[url := b]>) s).

Definition base64_alphabet : string :=
  "ABCDEFGHIJKLMNOPQRSTUVWXYZabcdefghijklmnopqrstuvwxyz0123456789+/".

Definition base64_digit (n : N) : ascii :=
  default "="%char (String.get (N.to_nat n) base64_alphabet).

Fixpoint base64 (bs : list Byte.byte) : string :=
  match bs with
  | [] => ""
  | [a] =>
      let x := Byte.to_N a in
      String (base64_digit (x / 4))
        (String (base64_digit (x mod 4 * 16)) "==")
  | [a; b] =>
      let x := Byte.to_N a in
      let y := Byte.to_N b in
      String (base64_digit (x / 4))
        (String (base64_digit (x mod 4 * 16 + y / 16))
          (String (base64_digit (y mod 16 * 4)) "="))
  | a :: b :: c :: rest =>
      let x := Byte.to_N a in
      let y := Byte.to_N b in
      let z := Byte.to_N c in
      String (base64_digit (x / 4))
        (String (base64_digit (x mod 4 * 16 + y / 16))
          (String (base64_digit (y mod 16 * 4 + z / 64))
            (String (base64_digit (z mod 64)) (base64 rest))))
  end%N.

(** [reader.result] after [reader.readAsDataURL(blob)]. *)
Definition readAsDataURL (b : Blob) : string :=
  "data:" +:+ blob_type b +:+ ";base64," +:+ base64 (blob_bytes b).

(** ** The component's callbacks *)

Definition MODEL_NETS : list Net :=
  [tinyFaceDetector; faceLandmark68TinyNet; faceRecognitionNet;
   ssdMobilenetv1].

(** [loadModels], up to its [await]: one [loadFromUri] per network. *)
Definition loadModels (s : State) : State :=
  let s := setLoadingModels true s in
  let s := upd_fetches (λ l, l ++ MODEL_NETS) s in
  set_pendingLoads (S (pendingLoads (io s))) s.

(** [loadModels] after [Promise.all] fulfils. *)
Definition loadModels_resolved (s : State) : State :=
  let s := setLoadingModels false s in
  setError None s.

Definition load_error : string :=
  "Failed to load face tracking models. Please check your network and model paths. Ensure models are in public/models.".

(** [loadModels], [catch] branch. *)
Definition loadModels_rejected (s : State) : State :=
  let s := setError (Some load_error) s in
  setLoadingModels false s.

(** The stream attached to the current video element, if any:
    [videoRef.current && videoRef.current.srcObject]. *)
Definition current_stream (s : State) : option nat :=
  v ← videoRef (refs s); ve ← videos (dom s) !! v; srcObject ve.

(** [startFaceDetection].  [detectionInterval] is declared in the function
    body, so the [clearInterval] guarded by it is written out as it is. *)
Definition startFaceDetection (s : State) : State :=
  match videoRef (refs s), canvasRef (refs s) with
  | Some video, Some canvas =>
      let detectionInterval : option nat := None in
      let s := match detectionInterval with
               | Some i => clearInterval i s
               | None => s
               end in
      setInterval {| t_video := video; t_canvas := canvas |} s
  | _, _ => s
  end.

(** [faceapi.TinyFaceDetectorOptions()], the options class called without
    [new]: a class cannot be called as a function, the call throws a
    TypeError.  [None] is the exception. *)
Definition TinyFaceDetectorOptions_call : option unit := None.

(** The interval callback up to its [await], on a video that is neither
    paused nor ended.  [faceapi.detectAllFaces(video, new ...Options())]
    only builds the task; the argument of [.withFaceLandmarks(...)] is
    evaluated next, and it is the call above.  When it throws, the promise
    of the callback rejects and no detection has been submitted. *)
Definition detection_tick (t : Timer) (s : State) : State :=
  match videos (dom s) !! t_video t with
  | Some video =>
      if negb (paused video) && negb (ended video)
      then match TinyFaceDetectorOptions_call with
           | Some _ => set_inflight (S (inflight (dom s))) s
           | None => s
           end
      else s
  | None => s
  end.

(** The interval callback after the [await]: the overlay is redrawn and the
    submission is over. *)
Definition detection_done (s : State) : State :=
  match inflight (dom s) with
  | O => s
  | S n => set_inflight n s
  end.

(** [startVideo], up to [await getUserMedia]. *)
Definition startVideo (env : Hooks) (s : State) : State :=
  match videoRef (refs s), canvasRef (refs s) with
  | Some _, Some _ => set_pendingCamera (pendingCamera (io s) ++ [env]) s
  | _, _ => s
  end.

Definition camera_error : string :=
  "Failed to access camera. Please ensure you have a webcam and grant permissions.".

(** [startVideo] after [getUserMedia] fulfils with [stream].  When the ref
    is null by then, the assignment throws inside the [try] and the [catch]
    reports it. *)
Definition startVideo_granted (env : Hooks) (stream : MediaStream)
    (s : State) : State :=
  let st := length (streams (dom s)) in
  let s := upd_streams (λ l, l ++ [stream]) s in
  match videoRef (refs s) with
  | Some v =>
      upd_videos (alter (λ ve,
        assign_onloadedmetadata (Some env) (assign_srcObject (Some st) ve)) v) s
  | None => setError (Some camera_error) s
  end.

(** [startVideo], [catch] branch. *)
Definition startVideo_denied (s : State) : State :=
  setError (Some camera_error) s.

(** The [onloadedmetadata] handler installed by the render [env]. *)
Definition handle_loadedmetadata (env : Hooks) (s : State) : State :=
  let s := match videoRef (refs s) with
           | Some v => upd_videos (alter video_play v) s
           | None => s
           end in
  if negb (loadingModels env) && negb (truthy (error env))
  then startFaceDetection s
  else s.

(** The block shared by the camera-off branch and the cleanup: if the
    current video element has a stream, stop every track of it and clear
    [srcObject]. *)
Definition stop_stream (s : State) : State :=
  match videoRef (refs s) with
  | Some v =>
      match videos (dom s) !! v with
      | Some ve =>
          match srcObject ve with
          | Some st =>
              let s := upd_streams (alter stop_tracks st) s in
              upd_videos (alter (assign_srcObject None) v) s
          | None => s
          end
      | None => s
      end
  | None => s
  end.

(** The body of the lifecycle effect, for the render [env]. *)
Definition effect_body (env : Hooks) (s : State) : State :=
  let s := loadModels s in
  if negb (loadingModels env) && negb (truthy (error env)) && cameraOn env
  then startVideo env s
  else if negb (cameraOn env) then stop_stream s
  else s.

(** The function the lifecycle effect returns, for the render [env]. *)
Definition effect_cleanup (env : Hooks) (s : State) : State :=
  let s := stop_stream s in
  let s := match mediaRecorderRef (refs s) with
           | Some r => if isRecording env then recorder_stop r s else s
           | None => s
           end in
  match videoRef (refs s) with
  | Some v => upd_videos (alter (assign_onloadedmetadata None) v) s
  | None => s
  end.

(** [handleDataAvailable] *)
Definition handleDataAvailable (data : Blob) (s : State) : State :=
  if (0 <? blob_size data)%nat
  then set_recordedChunks (recordedChunks (refs s) ++ [data]) s
  else s.

Definition RECORDING_TYPE : string := "video/webm; codecs=vp8".
Definition STORAGE_KEY : string := "recordedVideo".

(** [handleStop], up to [reader.readAsDataURL(superBuffer)]. *)
Definition handleStop (s : State) : State :=
  let superBuffer := new_Blob (recordedChunks (refs s)) RECORDING_TYPE in
  let '(url, s) := createObjectURL superBuffer s in
  let s := setVideoBlobUrl (Some url) s in
  let s := setIsRecording false s in
  let s := set_recordedChunks [] s in
  set_pendingReaders (pendingReaders (io s) ++ [superBuffer]) s.

Definition storage_error : string :=
  "Failed to save video to local storage. It might be too large.".

(** [reader.onloadend]: [stored] tells whether [localStorage.setItem]
    returned or threw. *)
Definition reader_onloadend (stored : bool) (b : Blob) (s : State) : State :=
  if stored
  then upd_localStorage (<[STORAGE_KEY := readAsDataURL b]>) s
  else setError (Some storage_error) s.

(** What [new MediaRecorder(...)] and [start()] do in [startRecording].
    When [start()] throws, the browser decides in which state it leaves
    the recorder: [recording] tells whether that state is ["recording"]. *)
Inductive RecorderOutcome :=
  | ConstructorThrows
  | StartThrows (recording : bool)
  | Started.

Definition recording_error : string :=
  "Failed to start recording. Your browser might not support MediaRecorder API or the selected mimeType.".

(** [startRecording] *)
Definition startRecording (o : RecorderOutcome) (s : State) : State :=
  match current_stream s with
  | None => setError (Some "No video stream available to record.") s
  | Some stream =>
      let s := set_recordedChunks [] s in
      let s := setVideoBlobUrl None s in
      let r := length (recorders (dom s)) in
      match o with
      | ConstructorThrows => setError (Some recording_error) s
      | StartThrows recording =>
          let s := upd_recorders (λ l, l ++
            [{| rec_stream := stream; rec_recording := recording |}]) s in
          let s := set_mediaRecorderRef (Some r) s in
          setError (Some recording_error) s
      | Started =>
          let s := upd_recorders (λ l, l ++
            [{| rec_stream := stream; rec_recording := true |}]) s in
          let s := set_mediaRecorderRef (Some r) s in
          setIsRecording true s
      end
  end.

(** [stopRecording] *)
Definition stopRecording (s : State) : State :=
  match mediaRecorderRef (refs s) with
  | Some r => if isRecording (hooks s) then recorder_stop r s else s
  | None => s
  end.

(** [downloadVideo]; [now] is [Date.now()]. *)
Definition downloadVideo (now : Z) (s : State) : State :=
  match videoBlobUrl (hooks s) with
  | Some (String c u) =>
      upd_downloads (λ l, l ++
        [(String c u, "face-tracking-video-" +:+ pretty now +:+ ".webm")]) s
  | _ => setError (Some "No video recorded to download.") s
  end.

(** The mount-only effect that restores the last recording. *)
Definition load_saved_video (s : State) : State :=
  match localStorage (io s) !! STORAGE_KEY with
  | Some (String c u) => setVideoBlobUrl (Some (String c u)) s
  | _ => s
  end.

(** The [disabled] attributes of the three buttons. *)
Definition start_disabled (s : State) : bool :=
  isRecording (hooks s) || loadingModels (hooks s)
  || truthy (error (hooks s)) || negb (cameraOn (hooks s)).
Definition stop_disabled (s : State) : bool := negb (isRecording (hooks s)).
Definition download_disabled (s : State) : bool :=
  negb (truthy (videoBlobUrl (hooks s))) || isRecording (hooks s).

(** ** React and the event loop *)

(** The dependency array of the lifecycle effect ([loadModels] is a
    [useCallback] with no dependencies and never changes). *)
Definition deps (h : Hooks) : bool * option string * bool * bool :=
  (loadingModels h, error h, isRecording h, cameraOn h).

(** React re-runs the lifecycle effect when a dependency differs from the
    render it last ran for: the previous render's cleanup, then this
    render's body. *)
Definition run_effects (s : State) : State :=
  match lastEffect s with
  | Some prev =>
      let env := hooks s in
      if bool_decide (deps prev = deps env) then s
      else set_lastEffect (Some env) (effect_body env (effect_cleanup prev s))
  | None => s
  end.

(** React attaches the refs of [<video>] and [<canvas>], which are rendered
    only while [cameraOn], and detaches them when they are removed.  The two
    elements are created together and share an index.  A video element
    removed from the document is paused by the browser; it keeps its
    [srcObject]. *)
Definition sync_refs (s : State) : State :=
  if cameraOn (hooks s) then
    match videoRef (refs s) with
    | Some _ => s
    | None =>
        let v := length (videos (dom s)) in
        let s := upd_videos (λ l, l ++ [new_video]) s in
        set_canvasRef (Some v) (set_videoRef (Some v) s)
    end
  else
    let s := match videoRef (refs s) with
             | Some v => upd_videos (alter video_pause v) s
             | None => s
             end in
    set_canvasRef None (set_videoRef None s).

Inductive Event :=
  | RunEffects
  | SyncRefs
  | ModelsLoaded
  | ModelsFailed
  | CameraGranted (tracks : nat)
  | CameraDenied
  | LoadedMetadata (v : nat)
  | Tick (i : nat)
  | DetectionDone
  | DataAvailable (data : Blob)
  | RecorderStopped
  | ReaderLoadEnd (stored : bool)
  | ClickStart (o : RecorderOutcome)
  | ClickStop
  | ClickDownload (now : Z)
  | ClickToggleCamera.

(** The recorder that fires its [stop] event is inactive by then, whether
    [stop()] was called on it or it stopped by itself because its stream
    ended.  [onstop] is bound to the recorder behind [mediaRecorderRef]. *)
Definition recorder_stopped (s : State) : State :=
  match mediaRecorderRef (refs s) with
  | Some r => recorder_stop r s
  | None => s
  end.

(** One turn of the event loop.  A disabled button delivers no click.
    Within one commit React detaches and attaches the refs ([SyncRefs])
    before it runs the effects ([RunEffects]); the event loop here admits
    the two in any order, which only adds runs. *)
Definition step (ev : Event) (s : State) : State :=
  match ev with
  | RunEffects => run_effects s
  | SyncRefs => sync_refs s
  | ModelsLoaded =>
      match pendingLoads (io s) with
      | O => s
      | S n => loadModels_resolved (set_pendingLoads n s)
      end
  | ModelsFailed =>
      match pendingLoads (io s) with
      | O => s
      | S n => loadModels_rejected (set_pendingLoads n s)
      end
  | CameraGranted tracks =>
      match pendingCamera (io s) with
      | [] => s
      | env :: rest =>
          startVideo_granted env (replicate tracks TrackLive)
            (set_pendingCamera rest s)
      end
  | CameraDenied =>
      match pendingCamera (io s) with
      | [] => s
      | env :: rest => startVideo_denied (set_pendingCamera rest s)
      end
  | LoadedMetadata v =>
      match videos (dom s) !! v with
      | Some ve =>
          match onloadedmetadata ve with
          | Some env => handle_loadedmetadata env s
          | None => s
          end
      | None => s
      end
  | Tick i =>
      match timers (dom s) !! i with
      | Some (Some t) => detection_tick t s
      | _ => s
      end
  | DetectionDone => detection_done s
  | DataAvailable data => handleDataAvailable data s
  | RecorderStopped => handleStop (recorder_stopped s)
  | ReaderLoadEnd stored =>
      match pendingReaders (io s) with
      | [] => s
      | b :: rest => reader_onloadend stored b (set_pendingReaders rest s)
      end
  | ClickStart o => if start_disabled s then s else startRecording o s
  | ClickStop => if stop_disabled s then s else stopRecording s
  | ClickDownload now => if download_disabled s then s else downloadVideo now s
  | ClickToggleCamera => setCameraOn (negb (cameraOn (hooks s))) s
  end.

Definition run (evs : list Event) (s : State) : State :=
  foldl (λ s ev, step ev s) s evs.

(** The component before its first commit; [storage] is what
    [localStorage] holds when the page opens. *)
Definition initial (storage : gmap string string) : State :=
  {| hooks := {| cameraOn := true; isRecording := false;
                 videoBlobUrl := None; loadingModels := true;
                 error := None |};
     refs := {| videoRef := None; canvasRef := None;
                mediaRecorderRef := None; recordedChunks := [] |};
     dom := {| videos := []; streams := []; recorders := []; timers := [];
               inflight := 0 |};
     io := {| fetches := []; pendingLoads := 0; pendingCamera := [];
              objectURLs := ∅; pendingReaders := [];
              localStorage := storage; downloads := [] |};
     lastEffect := None |}.

(** The first commit: refs attached, then the two effects in the order they
    are declared. *)
Definition mount (storage : gmap string string) : State :=
  let s := sync_refs (initial storage) in
  let env := hooks s in
  let s := set_lastEffect (Some env) (effect_body env s) in
  load_saved_video s.

(** ** Vocabulary of the properties *)

(** The chunks the encoder hands to [handleDataAvailable] during a run, in
    the order of the events. *)
Fixpoint emitted (evs : list Event) : list Blob :=
  match evs with
  | [] => []
  | DataAvailable data :: evs => data :: emitted evs
  | _ :: evs => emitted evs
  end.

(** The chunks [handleDataAvailable] keeps: those of positive size. *)
Definition nonempty_chunks (l : list Blob) : list Blob :=
  filter (λ c, 0 < blob_size c) l.

(** Events that begin or finalize a recording session. *)
Definition session_boundary (ev : Event) : bool :=
  match ev with
  | ClickStart _ | RecorderStopped => true
  | _ => false
  end.

(** The encoder's stop event, which runs [handleStop]. *)
Definition finalizes (ev : Event) : bool :=
  match ev with
  | RecorderStopped => true
  | _ => false
  end.

(** A state in which a camera stream is attached and one detection timer
    is registered: models loaded, the effect re-run twice (the second time because
    [loadModels] itself set [loadingModels]), camera granted, metadata
    loaded. *)
Definition detecting : State :=
  run [ModelsLoaded; RunEffects; RunEffects; CameraGranted 1;
       LoadedMetadata 0] (mount ∅).

(** Events singled out by the further properties. *)
Definition is_ModelsLoaded (ev : Event) : bool :=
  match ev with ModelsLoaded => true | _ => false end.
Definition is_ClickDownload (ev : Event) : bool :=
  match ev with ClickDownload _ => true | _ => false end.

(** The test under which the effect body calls [startVideo], and the test
    the [onloadedmetadata] handler makes before [startFaceDetection]. *)
Definition camera_gate (env : Hooks) : bool :=
  negb (loadingModels env) && negb (truthy (error env)) && cameraOn env.
Definition handler_gate (env : Hooks) : bool :=
  negb (loadingModels env) && negb (truthy (error env)).

(** Every pending [getUserMedia] continuation and every installed
    [onloadedmetadata] handler belongs to a render that passed the test
    of the effect body. *)
Definition handlers_gated (s : State) : Prop :=
  Forall (λ env, camera_gate env = true) (pendingCamera (io s))
  ∧ Forall (λ ve, ∀ env, onloadedmetadata ve = Some env →
                         camera_gate env = true) (videos (dom s)).

(** Models not available (loading, or an error set) and nothing of the
    camera or the detection loop started. *)
Definition dormant (s : State) : Prop :=
  (loadingModels (hooks s) = true ∨ truthy (error (hooks s)) = true)
  ∧ pendingCamera (io s) = []
  ∧ streams (dom s) = []
  ∧ timers (dom s) = []
  ∧ inflight (dom s) = 0%nat
  ∧ Forall (λ ve, srcObject ve = None ∧ onloadedmetadata ve = None)
      (videos (dom s)).

(** Stream [st] exists and is the source of no video element. *)
Definition unattached (st : nat) (s : State) : Prop :=
  (st < length (streams (dom s)))%nat
  ∧ Forall (λ ve, srcObject ve ≠ Some st) (videos (dom s)).

(** Every source of a video element is an existing stream. *)
Definition sources_exist (s : State) : Prop :=
  Forall (λ ve, ∀ st, srcObject ve = Some st →
                      (st < length (streams (dom s)))%nat)
    (videos (dom s)).

(** * Properties *)

(** ** Recording pipeline *)

Ltac unfold_callbacks :=
  unfold step, run_effects, sync_refs, effect_body, effect_cleanup,
    loadModels, loadModels_resolved, loadModels_rejected, startVideo,
    startVideo_granted, startVideo_denied, handle_loadedmetadata,
    startFaceDetection, detection_tick, detection_done, stop_stream,
    handleDataAvailable, reader_onloadend, startRecording, stopRecording,
    downloadVideo, recorder_stopped, recorder_stop, setInterval,
    clearInterval.

Ltac frame := unfold_callbacks; repeat case_match; reflexivity.

Section Recording.

Implicit Types (s : State) (ev : Event) (evs : list Event).

Lemma run_app evs1 evs2 s : run (evs1 ++ evs2) s = run evs2 (run evs1 s).
Proof. unfold run. apply foldl_app. Qed.

Lemma run_cons ev evs s : run (ev :: evs) s = run evs (step ev s).
Proof. reflexivity. Qed.

Lemma run_snoc evs ev s : run (evs ++ [ev]) s = step ev (run evs s).
Proof. by rewrite run_app. Qed.

(** C5: with no stream attached, [startRecording] only reports the error:
    the recording flag keeps its value (so it remains false), and the chunk
    sequence, the recorder ref, the artifact reference and the rest of the
    state are untouched. *)
Theorem startRecording_without_source o s :
  current_stream s = None →
  let s' := startRecording o s in
  error (hooks s') = Some "No video stream available to record."
  ∧ isRecording (hooks s') = isRecording (hooks s)
  ∧ (isRecording (hooks s) = false → isRecording (hooks s') = false)
  ∧ videoBlobUrl (hooks s') = videoBlobUrl (hooks s)
  ∧ cameraOn (hooks s') = cameraOn (hooks s)
  ∧ loadingModels (hooks s') = loadingModels (hooks s)
  ∧ refs s' = refs s
  ∧ dom s' = dom s
  ∧ io s' = io s
  ∧ lastEffect s' = lastEffect s.
Proof.
  intros Hnone s'. subst s'. unfold startRecording. rewrite Hnone.
  cbn. repeat split; auto.
Qed.

Lemma startRecording_without_source_witness :
  current_stream (mount ∅) = None
  ∧ error (hooks (startRecording Started (mount ∅)))
    = Some "No video stream available to record."
  ∧ recordedChunks (refs (startRecording Started (mount ∅))) = [].
Proof.
  split; [reflexivity|].
  pose proof (startRecording_without_source Started (mount ∅) eq_refl) as H.
  cbv zeta in H. destruct H as (He & _ & _ & _ & _ & _ & Hr & _).
  split; [exact He|]. rewrite Hr. reflexivity.
Defined.

(** C10: [stopRecording] outside a recording changes nothing at all: no
    recorder is signalled, no flag or chunk changes, no error is set; the
    Stop button is disabled as well. *)
Theorem stopRecording_not_recording s :
  isRecording (hooks s) = false →
  stopRecording s = s ∧ step ClickStop s = s.
Proof.
  intros Hrec. unfold step, stop_disabled, stopRecording. rewrite Hrec.
  split; [|reflexivity]. by destruct (mediaRecorderRef (refs s)).
Qed.

Lemma stopRecording_not_recording_witness :
  isRecording (hooks detecting) = false
  ∧ stopRecording detecting = detecting
  ∧ step ClickStop detecting = detecting.
Proof.
  split; [reflexivity|].
  exact (stopRecording_not_recording detecting eq_refl).
Defined.

Lemma handleStop_hooks s :
  hooks (handleStop s)
  = {| cameraOn := cameraOn (hooks s); isRecording := false;
       videoBlobUrl := Some (next_object_url s);
       loadingModels := loadingModels (hooks s);
       error := error (hooks s) |}.
Proof. reflexivity. Qed.

Lemma handleStop_objectURL s :
  objectURLs (io (handleStop s)) !! next_object_url s
  = Some (new_Blob (recordedChunks (refs s)) RECORDING_TYPE).
Proof. cbn. apply lookup_insert_eq. Qed.

Lemma handleStop_pendingReaders s :
  pendingReaders (io (handleStop s))
  = pendingReaders (io s)
    ++ [new_Blob (recordedChunks (refs s)) RECORDING_TYPE].
Proof. reflexivity. Qed.

Lemma next_object_url_truthy s : truthy (Some (next_object_url s)) = true.
Proof. reflexivity. Qed.

(** Completions of earlier [FileReader]s leave the artifact alone. *)
Lemma step_reader_frame stored s :
  videoBlobUrl (hooks (step (ReaderLoadEnd stored) s)) = videoBlobUrl (hooks s)
  ∧ isRecording (hooks (step (ReaderLoadEnd stored) s)) = isRecording (hooks s)
  ∧ objectURLs (io (step (ReaderLoadEnd stored) s)) = objectURLs (io s)
  ∧ pendingReaders (io (step (ReaderLoadEnd stored) s))
    = drop 1 (pendingReaders (io s)).
Proof.
  unfold step, reader_onloadend.
  destruct (pendingReaders (io s)) eqn:Hp, stored; cbn; by rewrite ?Hp.
Qed.

Lemma run_readers_frame (outs : list bool) s :
  videoBlobUrl (hooks (run (map ReaderLoadEnd outs) s)) = videoBlobUrl (hooks s)
  ∧ isRecording (hooks (run (map ReaderLoadEnd outs) s)) = isRecording (hooks s)
  ∧ objectURLs (io (run (map ReaderLoadEnd outs) s)) = objectURLs (io s)
  ∧ pendingReaders (io (run (map ReaderLoadEnd outs) s))
    = drop (length outs) (pendingReaders (io s)).
Proof.
  revert s. induction outs as [|stored outs IH]; intros s; [done|].
  cbn [map length]. rewrite run_cons.
  destruct (IH (step (ReaderLoadEnd stored) s)) as (-> & -> & -> & ->).
  destruct (step_reader_frame stored s) as (-> & -> & -> & ->).
  by rewrite drop_drop.
Qed.

(** C6: a finalize whose write to [localStorage] throws.  The earlier
    readers, if any, complete first, whatever their outcome; then the
    reader of this finalize completes and [setItem] throws.  The artifact
    reference set by [handleStop] stays and still names the assembled
    blob, the error slot describes the storage failure, nothing is
    stored, the Download button is enabled and a click on it saves the
    artifact without touching the error. *)
Theorem storage_failure_is_not_fatal s (outs : list bool) now :
  length outs = length (pendingReaders (io s)) →
  let s1 := run (map ReaderLoadEnd outs) (handleStop s) in
  let s2 := step (ReaderLoadEnd false) s1 in
  let url := next_object_url s in
  let artifact := new_Blob (recordedChunks (refs s)) RECORDING_TYPE in
  pendingReaders (io s1) = [artifact]
  ∧ videoBlobUrl (hooks s2) = Some url
  ∧ objectURLs (io s2) !! url = Some artifact
  ∧ error (hooks s2) = Some storage_error
  ∧ localStorage (io s2) = localStorage (io s1)
  ∧ download_disabled s2 = false
  ∧ step (ClickDownload now) s2
    = upd_downloads (λ l, l ++
        [(url, "face-tracking-video-" +:+ pretty now +:+ ".webm")]) s2
  ∧ error (hooks (step (ClickDownload now) s2)) = error (hooks s2).
Proof.
  intros Hlen s1 s2 url artifact.
  destruct (run_readers_frame outs (handleStop s)) as (Hu & Hrec & Hobj & Hp).
  fold s1 in Hu, Hrec, Hobj, Hp.
  rewrite handleStop_pendingReaders, Hlen, drop_app_length in Hp.
  rewrite handleStop_hooks in Hu, Hrec. cbn in Hu, Hrec.
  assert (Hs2 : s2 = setError (Some storage_error) (set_pendingReaders [] s1)).
  { unfold s2, step. by rewrite Hp. }
  assert (Hdis : download_disabled s2 = false).
  { rewrite Hs2. unfold download_disabled. cbn. by rewrite Hu, Hrec. }
  assert (Hdl : step (ClickDownload now) s2
    = upd_downloads (λ l, l ++
        [(url, "face-tracking-video-" +:+ pretty now +:+ ".webm")]) s2).
  { unfold step. rewrite Hdis. unfold downloadVideo.
    replace (videoBlobUrl (hooks s2)) with (Some url)
      by (rewrite Hs2; cbn; by rewrite Hu).
    reflexivity. }
  split; [done|].
  split; [rewrite Hs2; cbn; by rewrite Hu|].
  split; [rewrite Hs2; cbn; rewrite Hobj; apply handleStop_objectURL|].
  split; [by rewrite Hs2|].
  split; [by rewrite Hs2|].
  split; [done|]. split; [done|]. by rewrite Hdl.
Qed.

(** A second recording is finalized while the first one's reader is still
    pending; the first write succeeds, the second throws. *)
Lemma storage_failure_is_not_fatal_witness :
  let chunk := {| blob_bytes := [Byte.x61; Byte.x62];
                  blob_type := RECORDING_TYPE |} in
  let s := run [RecorderStopped; DataAvailable chunk] detecting in
  let s2 := step (ReaderLoadEnd false)
              (run (map ReaderLoadEnd [true]) (handleStop s)) in
  let artifact := new_Blob (recordedChunks (refs s)) RECORDING_TYPE in
  length [true] = length (pendingReaders (io s))
  ∧ next_object_url s = "blob:1"
  ∧ blob_bytes artifact = [Byte.x61; Byte.x62]
  ∧ videoBlobUrl (hooks s2) = Some (next_object_url s)
  ∧ objectURLs (io s2) !! next_object_url s = Some artifact
  ∧ error (hooks s2) = Some storage_error
  ∧ step (ClickDownload 42) s2
    = upd_downloads (λ l, l ++
        [(next_object_url s,
          "face-tracking-video-" +:+ pretty 42%Z +:+ ".webm")]) s2.
Proof.
  intros chunk s s2 artifact.
  destruct (storage_failure_is_not_fatal s [true] 42 eq_refl)
    as (_ & Hu & Hobj & He & _ & _ & Hdl & _).
  split; [reflexivity|].
  split; [vm_compute; reflexivity|].
  split; [vm_compute; reflexivity|].
  split; [exact Hu|]. split; [exact Hobj|]. split; [exact He|exact Hdl].
Defined.

(** C7: the Download button is enabled exactly when an artifact reference
    exists and nothing is being recorded, and a disabled button does
    nothing; [downloadVideo] without an artifact only reports the error;
    a permitted download saves the artifact under a name built from
    [Date.now()]. *)
Theorem download_gate s now :
  (download_disabled s = false
   ↔ truthy (videoBlobUrl (hooks s)) = true ∧ isRecording (hooks s) = false)
  ∧ (download_disabled s = true → step (ClickDownload now) s = s)
  ∧ (truthy (videoBlobUrl (hooks s)) = false →
     downloadVideo now s
     = setError (Some "No video recorded to download.") s)
  ∧ (∀ url, download_disabled s = false →
     videoBlobUrl (hooks s) = Some url →
     step (ClickDownload now) s
     = upd_downloads (λ l, l ++
         [(url, "face-tracking-video-" +:+ pretty now +:+ ".webm")]) s).
Proof.
  unfold step, download_disabled, downloadVideo.
  destruct (videoBlobUrl (hooks s)) as [[|c u]|] eqn:Hu;
    destruct (isRecording (hooks s)); cbn; rewrite ?Hu;
    repeat split; try done; try (intros []; done); try (intros ? ? [= <-]; done).
Qed.

Lemma download_gate_witness :
  let s := run [RecorderStopped] detecting in
  download_disabled s = false
  ∧ videoBlobUrl (hooks s) = Some "blob:0"
  ∧ downloads (io (step (ClickDownload 1700000000000) s))
    = [("blob:0", "face-tracking-video-1700000000000.webm")]
  ∧ download_disabled detecting = true
  ∧ step (ClickDownload 1700000000000) detecting = detecting
  ∧ error (hooks (downloadVideo 1700000000000 detecting))
    = Some "No video recorded to download.".
Proof.
  intros s.
  destruct (download_gate s 1700000000000) as (_ & _ & _ & Hok).
  destruct (download_gate detecting 1700000000000) as (_ & Hoff & Hno & _).
  split; [reflexivity|]. split; [reflexivity|].
  split; [rewrite (Hok "blob:0" eq_refl eq_refl); reflexivity|].
  split; [reflexivity|].
  split; [exact (Hoff eq_refl)|].
  rewrite (Hno eq_refl). reflexivity.
Defined.

(** *** Frame lemmas: what each turn of the event loop leaves alone *)

Lemma step_recordedChunks ev s :
  session_boundary ev = false →
  recordedChunks (refs (step ev s))
  = recordedChunks (refs s) ++ nonempty_chunks (emitted [ev]).
Proof.
  intros Hev. destruct ev; try discriminate Hev; cbn [emitted];
    unfold nonempty_chunks; rewrite ?filter_nil, ?app_nil_r; try frame.
  unfold step, handleDataAvailable.
  destruct (0 <? blob_size data)%nat eqn:Hsz.
  - apply Nat.ltb_lt in Hsz. rewrite filter_cons_True by done. reflexivity.
  - apply Nat.ltb_ge in Hsz. rewrite filter_cons_False by lia.
    by rewrite filter_nil, app_nil_r.
Qed.

Lemma emitted_cons ev evs : emitted (ev :: evs) = emitted [ev] ++ emitted evs.
Proof. by destruct ev. Qed.

Lemma run_recordedChunks evs s :
  forallb (λ ev, negb (session_boundary ev)) evs = true →
  recordedChunks (refs (run evs s))
  = recordedChunks (refs s) ++ nonempty_chunks (emitted evs).
Proof.
  revert s. induction evs as [|ev evs IH]; intros s Hevs.
  - cbn. by rewrite app_nil_r.
  - cbn in Hevs. apply andb_true_iff in Hevs as [Hev Hevs].
    apply negb_true_iff in Hev.
    rewrite run_cons, IH, step_recordedChunks, (emitted_cons ev evs) by done.
    unfold nonempty_chunks. by rewrite filter_app, app_assoc.
Qed.

(** Zero-length chunks contribute no bytes. *)
Lemma concat_nonempty_chunks (l : list Blob) :
  List.concat (map blob_bytes (nonempty_chunks l))
  = List.concat (map blob_bytes l).
Proof.
  unfold nonempty_chunks. induction l as [|c l IH]; [done|].
  destruct (decide (0 < blob_size c)) as [Hc|Hc].
  - rewrite filter_cons_True by done. cbn. by rewrite IH.
  - rewrite filter_cons_False by done. cbn. rewrite IH.
    unfold blob_size in Hc. by destruct (blob_bytes c); [|cbn in Hc; lia].
Qed.

Lemma startRecording_started s stream :
  current_stream s = Some stream →
  hooks (startRecording Started s)
  = {| cameraOn := cameraOn (hooks s); isRecording := true;
       videoBlobUrl := None; loadingModels := loadingModels (hooks s);
       error := error (hooks s) |}
  ∧ refs (startRecording Started s)
  = {| videoRef := videoRef (refs s); canvasRef := canvasRef (refs s);
       mediaRecorderRef := Some (length (recorders (dom s)));
       recordedChunks := [] |}
  ∧ recorders (dom (startRecording Started s))
  = recorders (dom s) ++ [{| rec_stream := stream; rec_recording := true |}].
Proof. intros Hs. unfold startRecording. rewrite Hs. done. Qed.

(** C3: during one recording session (from a successful start to the
    encoder's stop event) the chunk sequence is exactly the chunks of
    positive size the encoder emitted, in emission order; the artifact
    [handleStop] then exposes holds the concatenation of those chunks'
    bytes, which is also the concatenation of all emitted chunks. *)
Theorem recording_assembles_chunks_in_order s evs :
  current_stream s ≠ None →
  forallb (λ ev, negb (session_boundary ev)) evs = true →
  let s1 := run evs (startRecording Started s) in
  let s2 := handleStop s1 in
  recordedChunks (refs s1) = nonempty_chunks (emitted evs)
  ∧ videoBlobUrl (hooks s2) = Some (next_object_url s1)
  ∧ ∃ artifact,
      objectURLs (io s2) !! next_object_url s1 = Some artifact
      ∧ blob_bytes artifact
        = List.concat (map blob_bytes (nonempty_chunks (emitted evs)))
      ∧ blob_bytes artifact = List.concat (map blob_bytes (emitted evs)).
Proof.
  intros Hsrc Hevs s1 s2.
  destruct (current_stream s) as [stream|] eqn:Hs; [clear Hsrc|done].
  destruct (startRecording_started s stream Hs) as (_ & Hrefs & _).
  assert (Hchunks : recordedChunks (refs s1) = nonempty_chunks (emitted evs)).
  { subst s1. rewrite run_recordedChunks by done. by rewrite Hrefs. }
  split; [exact Hchunks|]. split; [reflexivity|].
  exists (new_Blob (recordedChunks (refs s1)) RECORDING_TYPE).
  split; [apply handleStop_objectURL|].
  rewrite Hchunks. cbn. split; [done|apply concat_nonempty_chunks].
Qed.

(** The scenario of the three chunks: "a", an empty chunk, "b" and "c"
    arrive between other events; the artifact's bytes are "abc". *)
Lemma recording_assembles_chunks_in_order_witness :
  let chunk t := {| blob_bytes := String.list_byte_of_string t;
                    blob_type := RECORDING_TYPE |} in
  let evs := [DataAvailable (chunk "a"); Tick 0; DataAvailable (chunk "");
              DataAvailable (chunk "b"); DetectionDone;
              DataAvailable (chunk "c"); ClickStop] in
  let s2 := handleStop (run evs (startRecording Started detecting)) in
  current_stream detecting ≠ None
  ∧ videoBlobUrl (hooks s2) = Some "blob:0"
  ∧ ∃ artifact, objectURLs (io s2) !! "blob:0" = Some artifact
      ∧ blob_bytes artifact = String.list_byte_of_string "abc".
Proof.
  intros chunk evs s2.
  assert (Hsrc : current_stream detecting ≠ None) by (vm_compute; discriminate).
  split; [exact Hsrc|].
  destruct (recording_assembles_chunks_in_order detecting evs Hsrc eq_refl)
    as (_ & Hurl & artifact & Hlook & _ & Hbytes).
  split; [exact Hurl|]. exists artifact. split; [exact Hlook|exact Hbytes].
Defined.

Lemma step_no_artifact ev s :
  finalizes ev = false →
  videoBlobUrl (hooks s) = None →
  videoBlobUrl (hooks (step ev s)) = None.
Proof.
  intros Hev Hu. destruct ev; try discriminate Hev;
    unfold_callbacks; repeat case_match; cbn; congruence.
Qed.

Lemma run_no_artifact evs s :
  forallb (λ ev, negb (finalizes ev)) evs = true →
  videoBlobUrl (hooks s) = None →
  videoBlobUrl (hooks (run evs s)) = None.
Proof.
  revert s. induction evs as [|ev evs IH]; intros s Hevs Hu; [done|].
  cbn in Hevs. apply andb_true_iff in Hevs as [Hev Hevs].
  apply negb_true_iff in Hev.
  rewrite run_cons. apply IH; [done|]. by apply step_no_artifact.
Qed.

(** C9: [startRecording] with a stream attached clears the artifact
    reference and the chunk sequence before it constructs the recorder,
    whatever the constructor then does; after a successful start no event
    other than the encoder's stop event brings an artifact reference back,
    so until then the Download button is disabled and [downloadVideo] only
    reports that there is nothing to download. *)
Theorem start_clears_previous_artifact s evs now :
  current_stream s ≠ None →
  forallb (λ ev, negb (finalizes ev)) evs = true →
  (∀ o, videoBlobUrl (hooks (startRecording o s)) = None
        ∧ recordedChunks (refs (startRecording o s)) = [])
  ∧ isRecording (hooks (startRecording Started s)) = true
  ∧ mediaRecorderRef (refs (startRecording Started s))
    = Some (length (recorders (dom s)))
  ∧ let s1 := run evs (startRecording Started s) in
    videoBlobUrl (hooks s1) = None
    ∧ download_disabled s1 = true
    ∧ step (ClickDownload now) s1 = s1
    ∧ downloadVideo now s1
      = setError (Some "No video recorded to download.") s1.
Proof.
  intros Hsrc Hevs.
  destruct (current_stream s) as [stream|] eqn:Hs; [clear Hsrc|done].
  destruct (startRecording_started s stream Hs) as (Hh & Hr & _).
  split.
  { intros o. unfold startRecording. rewrite Hs. by destruct o. }
  split; [by rewrite Hh|]. split; [by rewrite Hr|].
  intros s1.
  assert (Hu : videoBlobUrl (hooks s1) = None).
  { subst s1. apply run_no_artifact; [done|]. by rewrite Hh. }
  assert (Hd : download_disabled s1 = true).
  { unfold download_disabled. by rewrite Hu. }
  split; [done|]. split; [done|].
  split; [unfold step; by rewrite Hd|].
  unfold downloadVideo. by rewrite Hu.
Qed.

Lemma start_clears_previous_artifact_witness :
  let chunk := {| blob_bytes := [Byte.x61]; blob_type := RECORDING_TYPE |} in
  let s := run [RecorderStopped] detecting in
  let evs := [DataAvailable chunk; ReaderLoadEnd true; ClickStop;
              ClickDownload 5; ClickStart Started; Tick 0] in
  let s1 := run evs (startRecording Started s) in
  current_stream s ≠ None
  ∧ videoBlobUrl (hooks s) = Some "blob:0"
  ∧ videoBlobUrl (hooks s1) = None
  ∧ downloads (io (step (ClickDownload 5) s1)) = [].
Proof.
  intros chunk s evs s1.
  assert (Hsrc : current_stream s ≠ None) by (vm_compute; discriminate).
  split; [exact Hsrc|]. split; [reflexivity|].
  destruct (start_clears_previous_artifact s evs 5 Hsrc eq_refl)
    as (_ & _ & _ & Hu & _ & Hclick & _).
  split; [exact Hu|]. unfold s1. rewrite Hclick. reflexivity.
Defined.

End Recording.

(** ** Capture source *)

Section Capture.

Implicit Types (s : State) (env : Hooks).

Lemma State_eq s1 s2 :
  hooks s1 = hooks s2 → refs s1 = refs s2 → dom s1 = dom s2 →
  io s1 = io s2 → lastEffect s1 = lastEffect s2 → s1 = s2.
Proof. destruct s1, s2; cbn; congruence. Qed.

Lemma Dom_eq (d1 d2 : Dom) :
  videos d1 = videos d2 → streams d1 = streams d2 →
  recorders d1 = recorders d2 → timers d1 = timers d2 →
  inflight d1 = inflight d2 → d1 = d2.
Proof. destruct d1, d2; cbn; congruence. Qed.

Lemma stop_tracks_ended (tr : MediaStream) :
  Forall (λ t, t = TrackEnded) (stop_tracks tr).
Proof. unfold stop_tracks. induction tr; constructor; auto. Qed.

Lemma stop_tracks_idemp (tr : MediaStream) :
  stop_tracks (stop_tracks tr) = stop_tracks tr.
Proof. unfold stop_tracks. induction tr; cbn; congruence. Qed.

Lemma stop_stream_frame s :
  hooks (stop_stream s) = hooks s ∧ refs (stop_stream s) = refs s
  ∧ io (stop_stream s) = io s ∧ lastEffect (stop_stream s) = lastEffect s
  ∧ recorders (dom (stop_stream s)) = recorders (dom s)
  ∧ timers (dom (stop_stream s)) = timers (dom s)
  ∧ inflight (dom (stop_stream s)) = inflight (dom s).
Proof. unfold stop_stream. repeat case_match; done. Qed.

Lemma stop_stream_without_stream s :
  current_stream s = None → stop_stream s = s.
Proof.
  unfold current_stream, stop_stream. intros H.
  destruct (videoRef (refs s)) as [v|]; [|done]. cbn in H.
  destruct (videos (dom s) !! v) as [ve|]; [|done]. cbn in H.
  by rewrite H.
Qed.

Lemma stop_stream_releases s : current_stream (stop_stream s) = None.
Proof.
  destruct (current_stream s) as [st|] eqn:Hs;
    [|by rewrite stop_stream_without_stream].
  unfold current_stream, stop_stream in *.
  destruct (videoRef (refs s)) as [v|] eqn:Hv; [|done]. cbn in Hs.
  destruct (videos (dom s) !! v) as [ve|] eqn:Hve; [|done]. cbn in Hs.
  rewrite Hs. cbn. rewrite Hv. cbn.
  by rewrite list_lookup_alter_eq, Hve.
Qed.

Lemma stop_stream_tracks s st :
  current_stream s = Some st →
  streams (dom (stop_stream s)) !! st
  = stop_tracks <$> streams (dom s) !! st.
Proof.
  unfold current_stream, stop_stream. intros Hs.
  destruct (videoRef (refs s)) as [v|]; [|done]. cbn in Hs.
  destruct (videos (dom s) !! v) as [ve|]; [|done]. cbn in Hs.
  rewrite Hs. cbn. apply list_lookup_alter_eq.
Qed.

(** The cleanup, field by field. *)
Lemma effect_cleanup_frame env s :
  hooks (effect_cleanup env s) = hooks s
  ∧ refs (effect_cleanup env s) = refs s
  ∧ io (effect_cleanup env s) = io s
  ∧ lastEffect (effect_cleanup env s) = lastEffect s
  ∧ streams (dom (effect_cleanup env s)) = streams (dom (stop_stream s))
  ∧ timers (dom (effect_cleanup env s)) = timers (dom s)
  ∧ inflight (dom (effect_cleanup env s)) = inflight (dom s).
Proof.
  unfold effect_cleanup, recorder_stop.
  destruct (stop_stream_frame s) as (Hh & Hr & Hi & Hl & _ & Ht & Hn).
  repeat case_match; cbn; rewrite ?Hh, ?Hr, ?Hi, ?Hl, ?Ht, ?Hn; done.
Qed.

Lemma effect_cleanup_recorders env s :
  recorders (dom (effect_cleanup env s))
  = match mediaRecorderRef (refs s) with
    | Some r => if isRecording env
                then alter stop_recorder_state r (recorders (dom s))
                else recorders (dom s)
    | None => recorders (dom s)
    end.
Proof.
  unfold effect_cleanup, recorder_stop.
  destruct (stop_stream_frame s) as (_ & Hr & _ & _ & Hrec & _).
  rewrite Hr. repeat case_match; cbn; rewrite ?Hrec; done.
Qed.

Lemma effect_cleanup_videos env s :
  videos (dom (effect_cleanup env s))
  = match videoRef (refs s) with
    | Some v => alter (assign_onloadedmetadata None) v
                  (videos (dom (stop_stream s)))
    | None => videos (dom s)
    end.
Proof.
  unfold effect_cleanup, recorder_stop.
  destruct (stop_stream_frame s) as (_ & Hr & _).
  rewrite Hr.
  destruct (videoRef (refs s)) eqn:Hv; repeat case_match; cbn in *;
    rewrite ?Hr, ?Hv in *; simplify_eq; try done.
  all: unfold stop_stream; by rewrite Hv.
Qed.

Lemma alter_idemp {A} (f : A → A) (i : nat) (l : list A) :
  (∀ x, f (f x) = f x) → alter f i (alter f i l) = alter f i l.
Proof.
  intros Hf. rewrite list_alter_alter_eq.
  apply list_alter_ext; [|done]. intros x _. apply Hf.
Qed.

Lemma effect_cleanup_releases env s :
  current_stream (effect_cleanup env s) = None.
Proof.
  pose proof (stop_stream_releases s) as Hrel.
  destruct (stop_stream_frame s) as (_ & Hr & _).
  destruct (effect_cleanup_frame env s) as (_ & Hr' & _).
  unfold current_stream in *. rewrite Hr', effect_cleanup_videos.
  rewrite Hr in Hrel.
  destruct (videoRef (refs s)) as [v|]; [|done]. cbn in *.
  rewrite list_lookup_alter_eq.
  by destruct (videos (dom (stop_stream s)) !! v).
Qed.

Lemma effect_cleanup_idemp env s :
  effect_cleanup env (effect_cleanup env s) = effect_cleanup env s.
Proof.
  destruct (effect_cleanup_frame env s) as (Hh & Hr & Hi & Hl & Hst & Ht & Hn).
  destruct (effect_cleanup_frame env (effect_cleanup env s))
    as (Hh' & Hr' & Hi' & Hl' & Hst' & Ht' & Hn').
  pose proof (stop_stream_without_stream _ (effect_cleanup_releases env s))
    as Hnop.
  apply State_eq; try done. apply Dom_eq; try done.
  - rewrite effect_cleanup_videos, Hnop, Hr.
    destruct (videoRef (refs s)) as [v|] eqn:Hv; [|done].
    rewrite effect_cleanup_videos, Hv. by apply alter_idemp.
  - by rewrite Hst', Hnop.
  - rewrite effect_cleanup_recorders, Hr, effect_cleanup_recorders.
    destruct (mediaRecorderRef (refs s)) as [r|]; [|done].
    destruct (isRecording env); [|done]. by apply alter_idemp.
Qed.

(** The release block on its own: the block that the camera-off branch and
    the cleanup share leaves no stream attached to the current element,
    stops every track of the stream that was attached, and touches no
    [useState] cell; run again it changes nothing.  The whole cleanup is
    idempotent as well. *)
Lemma release_block_is_idempotent env s :
  stop_stream (stop_stream s) = stop_stream s
  ∧ current_stream (stop_stream s) = None
  ∧ (∀ st tracks,
       current_stream s = Some st → streams (dom s) !! st = Some tracks →
       ∃ tracks', streams (dom (stop_stream s)) !! st = Some tracks'
                  ∧ length tracks' = length tracks
                  ∧ Forall (λ t, t = TrackEnded) tracks')
  ∧ hooks (stop_stream s) = hooks s
  ∧ effect_cleanup env (effect_cleanup env s) = effect_cleanup env s
  ∧ current_stream (effect_cleanup env s) = None
  ∧ hooks (effect_cleanup env s) = hooks s.
Proof.
  split; [apply stop_stream_without_stream, stop_stream_releases|].
  split; [apply stop_stream_releases|].
  split.
  { intros st tracks Hs Htr. exists (stop_tracks tracks).
    rewrite (stop_stream_tracks s st Hs), Htr.
    split; [done|]. split; [|apply stop_tracks_ended].
    unfold stop_tracks. apply length_map. }
  split; [apply stop_stream_frame|].
  split; [apply effect_cleanup_idemp|].
  split; [apply effect_cleanup_releases|apply effect_cleanup_frame].
Qed.

Lemma release_block_is_idempotent_witness :
  let s := run [ModelsLoaded; RunEffects; RunEffects; CameraGranted 2]
             (mount ∅) in
  current_stream s = Some 0
  ∧ streams (dom s) !! 0 = Some [TrackLive; TrackLive]
  ∧ (∃ tracks', streams (dom (stop_stream s)) !! 0 = Some tracks'
                ∧ length tracks' = 2
                ∧ Forall (λ t, t = TrackEnded) tracks')
  ∧ stop_stream (stop_stream s) = stop_stream s.
Proof.
  intros s.
  destruct (release_block_is_idempotent (hooks s) s) as (Hidem & _ & Htr & _).
  split; [reflexivity|]. split; [reflexivity|].
  split; [|exact Hidem].
  exact (Htr 0 [TrackLive; TrackLive] eq_refl eq_refl).
Defined.

Lemma map_srcObject_pause (v : nat) (l : list HTMLVideoElement) :
  map srcObject (alter video_pause v l) = map srcObject l.
Proof. revert v. induction l as [|ve l IH]; intros [|v]; cbn; f_equal; auto. Qed.

Lemma run_effects_detached s :
  videoRef (refs s) = None →
  streams (dom (run_effects s)) = streams (dom s)
  ∧ videos (dom (run_effects s)) = videos (dom s)
  ∧ error (hooks (run_effects s)) = error (hooks s)
  ∧ cameraOn (hooks (run_effects s)) = cameraOn (hooks s)
  ∧ videoRef (refs (run_effects s)) = None.
Proof.
  intros Hv. unfold run_effects, effect_body, effect_cleanup, loadModels,
    startVideo, stop_stream, recorder_stop. rewrite Hv.
  repeat case_match; cbn in *; simplify_eq; done.
Qed.

(** C8 on the component: switching the camera off does not release the
    capture source.  The [<video>] element is rendered only while
    [cameraOn], so React removes it and detaches its ref before the
    effect's cleanup and camera-off branch run; both test
    [videoRef.current], find it null and skip the release.  After the
    click and the commit the camera is off, yet every track of every
    stream is as it was and every video element still has its source; no
    error is set. *)
Theorem camera_off_leaves_source_live s :
  cameraOn (hooks s) = true →
  let s' := run [ClickToggleCamera; SyncRefs; RunEffects] s in
  cameraOn (hooks s') = false
  ∧ videoRef (refs s') = None
  ∧ streams (dom s') = streams (dom s)
  ∧ map srcObject (videos (dom s')) = map srcObject (videos (dom s))
  ∧ error (hooks s') = error (hooks s).
Proof.
  intros Hon s'.
  set (s2 := sync_refs (setCameraOn false s)).
  assert (Hs' : s' = run_effects s2).
  { unfold s', run. cbn [foldl]. unfold step. by rewrite Hon. }
  assert (H2 : videoRef (refs s2) = None ∧ cameraOn (hooks s2) = false
               ∧ error (hooks s2) = error (hooks s)
               ∧ streams (dom s2) = streams (dom s)
               ∧ map srcObject (videos (dom s2)) = map srcObject (videos (dom s))).
  { unfold s2, sync_refs. cbn.
    destruct (videoRef (refs s)); cbn; repeat split; try done.
    apply map_srcObject_pause. }
  destruct H2 as (Hv & Hc & He & Hst & Hsrc).
  destruct (run_effects_detached s2 Hv) as (Hst' & Hv' & He' & Hc' & Hr').
  rewrite Hs', Hst', Hv', He', Hc'. done.
Qed.

(** The camera is on and its stream is playing; the user closes the
    camera.  The track stays live and the removed element keeps the
    stream. *)
Lemma camera_off_leaves_source_live_witness :
  let s' := run [ClickToggleCamera; SyncRefs; RunEffects] detecting in
  cameraOn (hooks detecting) = true
  ∧ streams (dom detecting) = [[TrackLive]]
  ∧ map srcObject (videos (dom detecting)) = [Some 0]
  ∧ cameraOn (hooks s') = false
  ∧ videoRef (refs s') = None
  ∧ streams (dom s') = streams (dom detecting)
  ∧ map srcObject (videos (dom s')) = map srcObject (videos (dom detecting))
  ∧ error (hooks s') = error (hooks detecting).
Proof.
  intros s'. split; [reflexivity|]. split; [reflexivity|].
  split; [reflexivity|].
  exact (camera_off_leaves_source_live detecting eq_refl).
Defined.

End Capture.

(** ** Detection loop *)

Section Detection.

Implicit Types (s : State) (ev : Event) (evs : list Event).

(** No turn of the event loop cancels a registered interval: the only
    [clearInterval] in the component is guarded by a variable that is null
    whenever it is tested. *)
Lemma step_keeps_timer ev s i t :
  timers (dom s) !! i = Some (Some t) →
  timers (dom (step ev s)) !! i = Some (Some t).
Proof.
  intros Ht. destruct ev; unfold_callbacks; repeat case_match; cbn;
    try done; by apply lookup_app_l_Some.
Qed.

Lemma run_keeps_timer evs s i t :
  timers (dom s) !! i = Some (Some t) →
  timers (dom (run evs s)) !! i = Some (Some t).
Proof.
  revert s. induction evs as [|ev evs IH]; intros s Ht; [done|].
  rewrite run_cons. by apply IH, step_keeps_timer.
Qed.




(** C2 on the component: the interval registered by [startFaceDetection]
    is still registered after its stream has been released.  First when
    the effect is re-run for a changed dependency (here the second load
    resolving), then when the camera is switched off, with the cleanup
    before or after React detaches the refs, and last when an error is
    set. *)
Theorem detection_timer_outlives_source :
  let timer := Some (Some {| t_video := 0; t_canvas := 0 |}) in
  let rerun := run [ModelsLoaded; RunEffects] detecting in
  let off := run [ClickToggleCamera; RunEffects; SyncRefs] detecting in
  let off' := run [ClickToggleCamera; SyncRefs; RunEffects] detecting in
  let failed := run [ModelsFailed; RunEffects] detecting in
  (current_stream rerun = None
   ∧ streams (dom rerun) !! 0 = Some [TrackEnded]
   ∧ timers (dom rerun) !! 0 = timer)
  ∧ (cameraOn (hooks off) = false ∧ current_stream off = None
     ∧ streams (dom off) !! 0 = Some [TrackEnded]
     ∧ timers (dom off) !! 0 = timer)
  ∧ (cameraOn (hooks off') = false ∧ current_stream off' = None
     ∧ timers (dom off') !! 0 = timer)
  ∧ (truthy (error (hooks failed)) = true ∧ current_stream failed = None
     ∧ streams (dom failed) !! 0 = Some [TrackEnded]
     ∧ timers (dom failed) !! 0 = timer).
Proof. vm_compute. repeat split. Qed.

End Detection.

(** ** Capability loader *)

Section Loader.

Implicit Types (s : State) (env : Hooks).

Lemma loadModels_io s :
  fetches (io (loadModels s)) = fetches (io s) ++ MODEL_NETS
  ∧ pendingLoads (io (loadModels s)) = S (pendingLoads (io s)).
Proof. done. Qed.

Lemma effect_body_loads env s :
  fetches (io (effect_body env s)) = fetches (io s) ++ MODEL_NETS
  ∧ pendingLoads (io (effect_body env s)) = S (pendingLoads (io s)).
Proof.
  unfold effect_body, startVideo.
  destruct (stop_stream_frame (loadModels s)) as (_ & _ & Hio & _).
  repeat case_match; cbn; rewrite ?Hio; done.
Qed.

Lemma run_effects_loads s prev :
  lastEffect s = Some prev → deps prev ≠ deps (hooks s) →
  fetches (io (run_effects s)) = fetches (io s) ++ MODEL_NETS
  ∧ pendingLoads (io (run_effects s)) = S (pendingLoads (io s)).
Proof.
  intros Hlast Hdeps. unfold run_effects. rewrite Hlast.
  rewrite bool_decide_eq_false_2 by done. cbn.
  destruct (effect_body_loads (hooks s) (effect_cleanup prev s)) as [Hf Hp].
  destruct (effect_cleanup_frame prev s) as (_ & _ & Hio & _).
  by rewrite Hf, Hp, Hio.
Qed.

(** C4, as the component implements it: the loader keeps no record of
    earlier calls.  Every run of the lifecycle effect's body calls it, every
    call issues the four fetches again and adds a pending load, and React
    re-runs the effect whenever a dependency changed.  A failing load sets
    the error and clears [loadingModels]; when the effect last ran without
    an error this changes a dependency, so the effect runs again and the
    load is issued again with no click in between. *)
Theorem loader_runs_with_every_effect env s :
  (fetches (io (loadModels s)) = fetches (io s) ++ MODEL_NETS
   ∧ pendingLoads (io (loadModels s)) = S (pendingLoads (io s)))
  ∧ (fetches (io (effect_body env s)) = fetches (io s) ++ MODEL_NETS
     ∧ pendingLoads (io (effect_body env s)) = S (pendingLoads (io s)))
  ∧ (∀ prev, lastEffect s = Some prev → deps prev ≠ deps (hooks s) →
       fetches (io (step RunEffects s)) = fetches (io s) ++ MODEL_NETS
       ∧ pendingLoads (io (step RunEffects s)) = S (pendingLoads (io s)))
  ∧ (∀ prev, lastEffect s = Some prev → error prev = None →
       0 < pendingLoads (io s) →
       let s1 := step ModelsFailed s in
       error (hooks s1) = Some load_error
       ∧ loadingModels (hooks s1) = false
       ∧ fetches (io (step RunEffects s1)) = fetches (io s) ++ MODEL_NETS
       ∧ pendingLoads (io (step RunEffects s1)) = pendingLoads (io s)).
Proof.
  split; [apply loadModels_io|]. split; [apply effect_body_loads|].
  split; [intros prev; apply run_effects_loads|].
  intros prev Hlast Herr Hpending s1.
  assert (Hs1 : ∃ n, pendingLoads (io s) = S n
                     ∧ s1 = loadModels_rejected (set_pendingLoads n s)).
  { subst s1. unfold step. destruct (pendingLoads (io s)) as [|n]; [lia|].
    by exists n. }
  destruct Hs1 as (n & Hn & ->).
  split; [done|]. split; [done|].
  destruct (run_effects_loads (loadModels_rejected (set_pendingLoads n s)) prev)
    as [Hf Hp]; [done| |].
  { unfold deps. cbn. rewrite Herr. intros [=]. }
  unfold step. by rewrite Hf, Hp, Hn.
Qed.

Lemma loader_runs_with_every_effect_witness :
  let s := mount ∅ in
  lastEffect s = Some (hooks (initial ∅))
  ∧ fetches (io s) = MODEL_NETS
  ∧ error (hooks (step ModelsFailed s)) = Some load_error
  ∧ fetches (io (run [ModelsFailed; RunEffects] s)) = MODEL_NETS ++ MODEL_NETS
  ∧ pendingLoads (io (run [ModelsFailed; RunEffects] s)) = 1.
Proof.
  intros s.
  destruct (loader_runs_with_every_effect (hooks s) s) as (_ & _ & _ & Hretry).
  destruct (Hretry (hooks (initial ∅)) eq_refl eq_refl) as (He & _ & Hf & Hp).
  { vm_compute. lia. }
  split; [reflexivity|]. split; [reflexivity|]. split; [exact He|].
  split; [exact Hf|exact Hp].
Defined.

(** C4 as stated fails.  After the first load succeeds the effect re-runs
    and fetches every network a second time; a second re-run, caused by
    the loader's own [setLoadingModels(true)], starts a third load while
    the second is pending; and after a failed load the effect re-runs and
    loads again although no button was clicked. *)
Lemma loader_fetches_again :
  ¬ NoDup (fetches (io (run [ModelsLoaded; RunEffects] (mount ∅))))
  ∧ pendingLoads (io (run [ModelsLoaded; RunEffects; RunEffects] (mount ∅)))
    = 2
  ∧ fetches (io (run [ModelsFailed] (mount ∅))) = MODEL_NETS
  ∧ fetches (io (run [ModelsFailed; RunEffects] (mount ∅)))
    = MODEL_NETS ++ MODEL_NETS.
Proof.
  split.
  - intros Hnd. vm_compute in Hnd. apply NoDup_cons_1_1 in Hnd.
    apply Hnd. repeat constructor.
  - split; [reflexivity|]. split; reflexivity.
Qed.

End Loader.

(** * Further properties *)

Local Open Scope nat_scope.

(** ** Detection loop, continued *)

Section DetectionMore.

Implicit Types (s : State) (ev : Event) (evs : list Event).

Lemma step_timers_prefix ev s :
  timers (dom s) `prefix_of` timers (dom (step ev s)).
Proof.
  destruct ev; unfold_callbacks; repeat case_match; cbn;
    try reflexivity; by apply prefix_app_r.
Qed.

(** X2: interval timers only accumulate.  Over any sequence of events the
    list of timers is extended at its end and never shortened or
    overwritten, so a timer once registered is still registered, still
    active and still bound to the same elements. *)
Theorem timers_only_grow evs s :
  timers (dom s) `prefix_of` timers (dom (run evs s))
  ∧ length (timers (dom s)) ≤ length (timers (dom (run evs s)))
  ∧ ∀ i t, timers (dom s) !! i = Some t →
           timers (dom (run evs s)) !! i = Some t.
Proof.
  assert (Hpre : timers (dom s) `prefix_of` timers (dom (run evs s))).
  { revert s. induction evs as [|ev evs IH]; intros s; [done|].
    rewrite run_cons. etrans; [apply step_timers_prefix|apply IH]. }
  split; [done|]. split; [by apply prefix_length|].
  intros i t Hi. by eapply prefix_lookup_Some.
Qed.

Lemma timers_only_grow_witness :
  let evs := [ModelsLoaded; RunEffects; CameraGranted 1; LoadedMetadata 0;
              ClickToggleCamera; SyncRefs; RunEffects] in
  let timer := Some {| t_video := 0; t_canvas := 0 |} in
  timers (dom detecting) !! 0 = Some timer
  ∧ timers (dom (run evs detecting)) !! 0 = Some timer
  ∧ length (timers (dom (run evs detecting))) = 2.
Proof.
  intros evs timer.
  destruct (timers_only_grow evs detecting) as (_ & _ & Hkeep).
  split; [reflexivity|]. split; [exact (Hkeep 0 timer eq_refl)|].
  vm_compute. reflexivity.
Defined.

End DetectionMore.

(** ** Lifecycle effect and camera, continued *)

Section Lifecycle.

Implicit Types (s : State) (env : Hooks) (ev : Event) (evs : list Event).

Lemma step_error_sticky ev s :
  is_ModelsLoaded ev = false →
  truthy (error (hooks s)) = true →
  truthy (error (hooks (step ev s))) = true.
Proof.
  intros Hev He. destruct ev; try discriminate Hev;
    unfold_callbacks; repeat case_match; cbn; done.
Qed.

(** X3: the error slot is sticky.  Only a successful model load clears
    it: over any events without one, an error that is set stays set
    (possibly replaced by another message), the Start button stays
    disabled and a click on it does nothing. *)
Theorem error_is_sticky evs s o :
  forallb (λ ev, negb (is_ModelsLoaded ev)) evs = true →
  truthy (error (hooks s)) = true →
  truthy (error (hooks (run evs s))) = true
  ∧ start_disabled (run evs s) = true
  ∧ step (ClickStart o) (run evs s) = run evs s.
Proof.
  intros Hevs He.
  assert (H : truthy (error (hooks (run evs s))) = true).
  { revert s He. induction evs as [|ev evs IH]; intros s He; [done|].
    cbn in Hevs. apply andb_true_iff in Hevs as [Hev Hevs].
    apply negb_true_iff in Hev. rewrite run_cons.
    apply IH; [done|]. by apply step_error_sticky. }
  assert (Hd : start_disabled (run evs s) = true).
  { unfold start_disabled. rewrite H.
    by destruct (isRecording _), (loadingModels _). }
  split; [done|]. split; [done|]. unfold step. by rewrite Hd.
Qed.

Lemma error_is_sticky_witness :
  let s := step CameraDenied
             (run [ModelsLoaded; RunEffects] (mount ∅)) in
  let evs := [RunEffects; ClickToggleCamera; ClickDownload 7;
              ModelsFailed; ClickStart Started] in
  truthy (error (hooks s)) = true
  ∧ truthy (error (hooks (run evs s))) = true
  ∧ start_disabled (run evs s) = true
  ∧ step (ClickStart Started) (run evs s) = run evs s.
Proof.
  intros s evs. split; [reflexivity|].
  exact (error_is_sticky evs s Started eq_refl eq_refl).
Defined.

(** How the callbacks of the effect act on the video elements and on the
    pending camera requests. *)
Lemma stop_stream_videos_Forall (P : HTMLVideoElement → Prop) s :
  (∀ ve, P ve → P (assign_srcObject None ve)) →
  Forall P (videos (dom s)) → Forall P (videos (dom (stop_stream s))).
Proof.
  intros HP Hall. unfold stop_stream. repeat case_match; cbn; try done.
  apply Forall_alter; auto.
Qed.

Lemma effect_cleanup_videos_Forall (P : HTMLVideoElement → Prop) env s :
  (∀ ve, P ve → P (assign_srcObject None ve)) →
  (∀ ve, P ve → P (assign_onloadedmetadata None ve)) →
  Forall P (videos (dom s)) → Forall P (videos (dom (effect_cleanup env s))).
Proof.
  intros HP1 HP2 Hall. rewrite effect_cleanup_videos.
  destruct (videoRef (refs s)); [|done].
  apply Forall_alter; [by apply stop_stream_videos_Forall|auto].
Qed.

Lemma effect_body_videos_Forall (P : HTMLVideoElement → Prop) env s :
  (∀ ve, P ve → P (assign_srcObject None ve)) →
  Forall P (videos (dom s)) → Forall P (videos (dom (effect_body env s))).
Proof.
  intros HP Hall. unfold effect_body, startVideo.
  repeat case_match; cbn; try done.
  by apply (stop_stream_videos_Forall P (loadModels s)).
Qed.

Lemma effect_body_pendingCamera env s :
  pendingCamera (io (effect_body env s))
  = if camera_gate env
    then match videoRef (refs s), canvasRef (refs s) with
         | Some _, Some _ => pendingCamera (io s) ++ [env]
         | _, _ => pendingCamera (io s)
         end
    else pendingCamera (io s).
Proof.
  unfold effect_body, camera_gate, startVideo.
  destruct (stop_stream_frame (loadModels s)) as (_ & _ & Hio & _).
  repeat case_match; cbn in *; rewrite ?Hio; simplify_eq; done.
Qed.

Lemma step_videos_Forall (P : HTMLVideoElement → Prop) ev s :
  (∀ ve, P ve → P (assign_srcObject None ve)) →
  (∀ ve, P ve → P (assign_onloadedmetadata None ve)) →
  (∀ ve, P ve → P (video_play ve)) →
  (∀ ve, P ve → P (video_pause ve)) →
  P new_video →
  (∀ n env rest ve, ev = CameraGranted n →
     pendingCamera (io s) = env :: rest → P ve →
     P (assign_onloadedmetadata (Some env)
          (assign_srcObject (Some (length (streams (dom s)))) ve))) →
  Forall P (videos (dom s)) → Forall P (videos (dom (step ev s))).
Proof.
  intros HP1 HP2 HP3 HPp HP4 HP5 Hall. destruct ev.
  - unfold step, run_effects. repeat case_match; cbn; try done.
    apply effect_body_videos_Forall; [done|].
    by apply effect_cleanup_videos_Forall.
  - unfold step, sync_refs. repeat case_match; cbn; try done.
    + apply Forall_app_2; [done|by constructor].
    + apply Forall_alter; auto.
  - unfold_callbacks; repeat case_match; done.
  - unfold_callbacks; repeat case_match; done.
  - unfold step, startVideo_granted. repeat case_match; cbn; try done.
    apply Forall_alter; eauto.
  - unfold_callbacks; repeat case_match; done.
  - unfold step, handle_loadedmetadata, startFaceDetection, setInterval.
    repeat case_match; cbn; try done; apply Forall_alter; auto.
  - unfold_callbacks; repeat case_match; done.
  - unfold_callbacks; repeat case_match; done.
  - unfold_callbacks; repeat case_match; done.
  - unfold_callbacks; repeat case_match; done.
  - unfold_callbacks; repeat case_match; done.
  - unfold_callbacks; repeat case_match; done.
  - unfold_callbacks; repeat case_match; done.
  - unfold_callbacks; repeat case_match; done.
  - done.
Qed.

Lemma camera_gate_handler_gate env :
  camera_gate env = true → handler_gate env = true.
Proof.
  unfold camera_gate, handler_gate. intros H.
  by apply andb_true_iff in H as [H _].
Qed.

Lemma step_pendingCamera_gated ev s :
  Forall (λ env, camera_gate env = true) (pendingCamera (io s)) →
  Forall (λ env, camera_gate env = true) (pendingCamera (io (step ev s))).
Proof.
  intros Hall. destruct ev;
    try (unfold_callbacks; repeat case_match; cbn; done).
  - unfold step, run_effects. repeat case_match; cbn; try done.
    rewrite effect_body_pendingCamera.
    destruct (effect_cleanup_frame h s) as (_ & Hr & Hio & _).
    rewrite Hr, Hio.
    destruct (camera_gate (hooks s)) eqn:Hg; [|done].
    repeat case_match; try done.
    apply Forall_app_2; [done|by constructor].
  - unfold step, startVideo_granted.
    destruct (pendingCamera (io s)) as [|env rest] eqn:Hp; [by rewrite Hp|].
    apply Forall_cons in Hall as [_ Hall]. by repeat case_match.
  - unfold step, startVideo_denied.
    destruct (pendingCamera (io s)) as [|env rest] eqn:Hp; [by rewrite Hp|].
    by apply Forall_cons in Hall as [_ Hall].
Qed.

Lemma step_handlers_gated ev s : handlers_gated s → handlers_gated (step ev s).
Proof.
  intros [Hp Hv]. split; [by apply step_pendingCamera_gated|].
  apply step_videos_Forall; try done.
  intros n env rest ve _ Hpend _ env' [= <-].
  rewrite Hpend in Hp. by apply Forall_cons in Hp as [? _].
Qed.

Lemma mount_handlers_gated storage : handlers_gated (mount storage).
Proof.
  unfold mount, load_saved_video, handlers_gated.
  repeat case_match; cbn; split; repeat constructor; done.
Qed.

Lemma run_handlers_gated evs s : handlers_gated s → handlers_gated (run evs s).
Proof.
  revert s. induction evs as [|ev evs IH]; intros s Hs; [done|].
  rewrite run_cons. by apply IH, step_handlers_gated.
Qed.

Lemma loadedmetadata_registers s v ve env video canvas :
  handler_gate env = true →
  videos (dom s) !! v = Some ve →
  onloadedmetadata ve = Some env →
  videoRef (refs s) = Some video →
  canvasRef (refs s) = Some canvas →
  timers (dom (step (LoadedMetadata v) s))
  = timers (dom s) ++ [Some {| t_video := video; t_canvas := canvas |}].
Proof.
  intros Hg Hv Hh Hvideo Hcanvas. unfold step. rewrite Hv, Hh.
  unfold handle_loadedmetadata, startFaceDetection, setInterval.
  unfold handler_gate in Hg. rewrite Hg, Hvideo. cbn. by rewrite Hvideo, Hcanvas.
Qed.

(** X4: the [onloadedmetadata] handler decides on a snapshot.  In every
    state reached from the first commit, a handler that is installed was
    installed by a render with models loaded and no error, so its test of
    [loadingModels] and [error] always passes: when the metadata event
    fires and the refs are attached, a detection timer is registered,
    whatever [loadingModels] and [error] are by then. *)
Theorem loadedmetadata_starts_detection storage evs v ve env video canvas :
  let s := run evs (mount storage) in
  videos (dom s) !! v = Some ve →
  onloadedmetadata ve = Some env →
  videoRef (refs s) = Some video →
  canvasRef (refs s) = Some canvas →
  handler_gate env = true
  ∧ timers (dom (step (LoadedMetadata v) s))
    = timers (dom s) ++ [Some {| t_video := video; t_canvas := canvas |}].
Proof.
  intros s Hv Hh Hvideo Hcanvas.
  assert (Hg : handler_gate env = true).
  { apply camera_gate_handler_gate.
    destruct (run_handlers_gated evs (mount storage)
                (mount_handlers_gated storage)) as [_ Hall].
    by eapply (Forall_lookup_1 _ _ _ _ Hall Hv). }
  split; [done|]. by apply (loadedmetadata_registers s v ve env).
Qed.

(** The second load has failed and the camera has been switched off when
    the metadata event fires: detection starts all the same. *)
Lemma loadedmetadata_starts_detection_witness :
  let evs := [ModelsLoaded; RunEffects; RunEffects; CameraGranted 1;
              ModelsFailed; ClickToggleCamera] in
  let s := run evs (mount ∅) in
  let env := {| cameraOn := true; isRecording := false; videoBlobUrl := None;
                loadingModels := false; error := None |} in
  let ve := {| srcObject := Some 0; paused := true; ended := false;
               onloadedmetadata := Some env |} in
  videos (dom s) !! 0 = Some ve
  ∧ truthy (error (hooks s)) = true
  ∧ cameraOn (hooks s) = false
  ∧ handler_gate env = true
  ∧ timers (dom (step (LoadedMetadata 0) s))
    = timers (dom s) ++ [Some {| t_video := 0; t_canvas := 0 |}].
Proof.
  intros evs s env ve.
  split; [reflexivity|]. split; [reflexivity|]. split; [reflexivity|].
  exact (loadedmetadata_starts_detection ∅ evs 0 ve env 0 0
           eq_refl eq_refl eq_refl eq_refl).
Defined.

Lemma models_unavailable_start_disabled s :
  loadingModels (hooks s) = true ∨ truthy (error (hooks s)) = true →
  start_disabled s = true ∧ camera_gate (hooks s) = false.
Proof.
  unfold start_disabled, camera_gate.
  intros [-> | ->]; destruct (isRecording _);
    rewrite ?andb_false_r, ?orb_true_r; done.
Qed.

Lemma step_models_unavailable ev s :
  is_ModelsLoaded ev = false →
  loadingModels (hooks s) = true ∨ truthy (error (hooks s)) = true →
  loadingModels (hooks (step ev s)) = true
  ∨ truthy (error (hooks (step ev s))) = true.
Proof.
  intros Hev Hun. destruct ev; try discriminate Hev.
  12: { unfold step.
        by destruct (models_unavailable_start_disabled s Hun) as [-> _]. }
  all: destruct Hun as [Hl | He];
    unfold_callbacks; repeat case_match; cbn; auto.
Qed.

Lemma stop_stream_streams_nil s :
  streams (dom s) = [] → streams (dom (stop_stream s)) = [].
Proof.
  intros H. unfold stop_stream. repeat case_match; cbn; rewrite ?H; done.
Qed.

Lemma effect_body_frame env s :
  refs (effect_body env s) = refs s
  ∧ timers (dom (effect_body env s)) = timers (dom s)
  ∧ inflight (dom (effect_body env s)) = inflight (dom s)
  ∧ recorders (dom (effect_body env s)) = recorders (dom s)
  ∧ (streams (dom s) = [] → streams (dom (effect_body env s)) = []).
Proof.
  unfold effect_body, startVideo.
  destruct (stop_stream_frame (loadModels s)) as (_ & Hr & _ & _ & Hrec & Ht & Hn).
  pose proof (stop_stream_streams_nil (loadModels s)) as Hs.
  repeat case_match; cbn in *; rewrite ?Hr, ?Hrec, ?Ht, ?Hn; auto.
Qed.

Lemma mount_dormant storage : dormant (mount storage).
Proof.
  unfold mount, load_saved_video, dormant.
  repeat case_match; cbn; repeat split; auto; repeat constructor.
Qed.

Lemma step_dormant ev s :
  is_ModelsLoaded ev = false → dormant s → dormant (step ev s).
Proof.
  intros Hev (Hun & Hp & Hst & Ht & Hn & Hv).
  split; [by apply step_models_unavailable|].
  assert (Hvideos : Forall (λ ve, srcObject ve = None ∧ onloadedmetadata ve = None)
                      (videos (dom (step ev s)))).
  { apply step_videos_Forall; [by intros ve [? ?]..|done| |done].
    intros n env rest ve _ Hpend. by rewrite Hp in Hpend. }
  destruct (models_unavailable_start_disabled s Hun) as [Hdis Hgate].
  destruct ev; try discriminate Hev.
  - (* RunEffects *)
    unfold step in *. unfold run_effects in *.
    destruct (lastEffect s) as [prev|]; [|done].
    case_bool_decide; [done|]. cbn in *.
    destruct (effect_cleanup_frame prev s) as (_ & Hr & Hio & _ & Hcs & Hct & Hcn).
    destruct (effect_body_frame (hooks s) (effect_cleanup prev s))
      as (_ & Hbt & Hbn & _ & Hbs).
    rewrite effect_body_pendingCamera, Hgate, Hio, Hbt, Hbn, Hct, Hcn.
    repeat split; try done. apply Hbs. rewrite Hcs.
    by apply stop_stream_streams_nil.
  - unfold step, sync_refs in *. repeat case_match; done.
  - unfold step, loadModels_rejected in *. repeat case_match; done.
  - unfold step in *. by rewrite Hp.
  - unfold step in *. by rewrite Hp.
  - unfold step in *.
    destruct (videos (dom s) !! v) as [ve|] eqn:Hve; [|done].
    destruct (Forall_lookup_1 _ _ _ _ Hv Hve) as [_ ->]. done.
  - unfold step in *. by rewrite Ht.
  - unfold step, detection_done in *. by rewrite Hn.
  - unfold step, handleDataAvailable in *. repeat case_match; done.
  - unfold step, recorder_stopped, recorder_stop in *. repeat case_match; done.
  - unfold step, reader_onloadend in *. repeat case_match; done.
  - unfold step in *. by rewrite Hdis.
  - unfold step, stopRecording, recorder_stop in *. repeat case_match; done.
  - unfold step, downloadVideo in *. repeat case_match; done.
  - done.
Qed.

(** X5: without a successful model load the camera and the detection
    loop stay idle.  From the first commit, over any events that contain
    no successful load (loads may fail, the camera may be toggled, buttons
    clicked), the component never calls [getUserMedia], no stream exists,
    no video element has a source or a metadata handler, and no timer is
    registered. *)
Theorem no_camera_without_models storage evs :
  forallb (λ ev, negb (is_ModelsLoaded ev)) evs = true →
  dormant (run evs (mount storage)).
Proof.
  intros Hevs. generalize (mount_dormant storage).
  generalize (mount storage). induction evs as [|ev evs IH]; intros s Hs; [done|].
  cbn in Hevs. apply andb_true_iff in Hevs as [Hev Hevs].
  apply negb_true_iff in Hev. rewrite run_cons.
  apply IH; [done|]. by apply step_dormant.
Qed.

Lemma no_camera_without_models_witness :
  let evs := [ModelsFailed; RunEffects; ClickToggleCamera; SyncRefs;
              RunEffects; ClickToggleCamera; SyncRefs; RunEffects;
              CameraGranted 1; LoadedMetadata 1; Tick 0;
              ClickStart Started] in
  dormant (run evs (mount ∅))
  ∧ length (fetches (io (run evs (mount ∅)))) = 16.
Proof.
  intros evs. split; [|reflexivity].
  exact (no_camera_without_models ∅ evs eq_refl).
Defined.

(** X6: with the video ref detached, a re-run of the effect releases
    nothing.  React has removed the [<video>] element (the camera was
    switched off), so [videoRef.current] is null in the cleanup and in the
    camera-off branch: no track of any stream is stopped and no element
    loses its source. *)
Theorem detached_ref_releases_nothing s :
  videoRef (refs s) = None →
  streams (dom (step RunEffects s)) = streams (dom s)
  ∧ videos (dom (step RunEffects s)) = videos (dom s)
  ∧ pendingCamera (io (step RunEffects s)) = pendingCamera (io s).
Proof.
  intros Hv. unfold_callbacks. rewrite Hv.
  repeat case_match; cbn in *; simplify_eq; done.
Qed.

Lemma detached_ref_releases_nothing_witness :
  let s := run [ModelsLoaded; ClickToggleCamera; SyncRefs] detecting in
  videoRef (refs s) = None
  ∧ cameraOn (hooks s) = false
  ∧ streams (dom s) = [[TrackLive]]
  ∧ streams (dom (step RunEffects s)) = streams (dom s)
  ∧ videos (dom (step RunEffects s)) = videos (dom s)
  ∧ pendingCamera (io (step RunEffects s)) = pendingCamera (io s).
Proof.
  intros s. split; [reflexivity|]. split; [reflexivity|].
  split; [reflexivity|].
  exact (detached_ref_releases_nothing s eq_refl).
Defined.

Lemma step_streams_length ev s :
  length (streams (dom s)) ≤ length (streams (dom (step ev s))).
Proof.
  destruct ev; unfold_callbacks; repeat case_match; cbn;
    rewrite ?length_app, ?length_alter; lia.
Qed.

Lemma step_sources_exist ev s : sources_exist s → sources_exist (step ev s).
Proof.
  unfold sources_exist. intros Hall.
  pose proof (step_streams_length ev s) as Hlen.
  apply step_videos_Forall; try done.
  - intros n env rest ve -> Hpend _ st [= <-].
    unfold step, startVideo_granted. rewrite Hpend.
    repeat case_match; cbn; rewrite length_app; cbn; lia.
  - eapply Forall_impl; [done|]. intros ve Hve st Hst.
    specialize (Hve st Hst). lia.
Qed.

Lemma mount_sources_exist storage : sources_exist (mount storage).
Proof.
  unfold mount, load_saved_video, sources_exist.
  repeat case_match; cbn; repeat constructor; done.
Qed.

Lemma run_sources_exist evs s : sources_exist s → sources_exist (run evs s).
Proof.
  revert s. induction evs as [|ev evs IH]; intros s Hs; [done|].
  rewrite run_cons. by apply IH, step_sources_exist.
Qed.

Lemma stop_stream_unattached st s :
  unattached st s →
  streams (dom (stop_stream s)) !! st = streams (dom s) !! st.
Proof.
  intros [_ Hall]. unfold stop_stream.
  destruct (videoRef (refs s)) as [v|]; [|done].
  destruct (videos (dom s) !! v) as [ve|] eqn:Hve; [|done].
  destruct (srcObject ve) as [st'|] eqn:Hsrc; [|done]. cbn.
  apply list_lookup_alter_ne. intros ->.
  by apply (Forall_lookup_1 _ _ _ _ Hall Hve).
Qed.

Lemma step_unattached st ev s :
  unattached st s →
  unattached st (step ev s)
  ∧ streams (dom (step ev s)) !! st = streams (dom s) !! st.
Proof.
  intros Hun. pose proof Hun as [Hlt Hall].
  assert (Hun' : unattached st (step ev s)).
  { split; [pose proof (step_streams_length ev s); lia|].
    apply step_videos_Forall; try done.
    intros n env rest ve _ _ _ [= Heq]. lia. }
  split; [done|]. destruct ev;
    try (unfold_callbacks; repeat case_match; cbn; done).
  - (* RunEffects *)
    unfold step, run_effects. repeat case_match; cbn; try done.
    destruct (effect_cleanup_frame h s) as (_ & _ & _ & _ & Hcs & _).
    assert (Hunc : unattached st (effect_cleanup h s)).
    { split.
      - rewrite Hcs. unfold stop_stream. repeat case_match; cbn;
          rewrite ?length_alter; done.
      - by apply effect_cleanup_videos_Forall. }
    transitivity (streams (dom (effect_cleanup h s)) !! st).
    + unfold effect_body, startVideo.
      pose proof (stop_stream_unattached st (loadModels (effect_cleanup h s))
                    Hunc) as Hss.
      repeat case_match; cbn in *; done.
    + rewrite Hcs. by apply stop_stream_unattached.
  - (* CameraGranted *)
    unfold step, startVideo_granted. repeat case_match; cbn; try done;
      by apply lookup_app_l.
Qed.

Lemma run_unattached st evs s :
  unattached st s →
  streams (dom (run evs s)) !! st = streams (dom s) !! st.
Proof.
  revert s. induction evs as [|ev evs IH]; intros s Hun; [done|].
  rewrite run_cons. destruct (step_unattached st ev s Hun) as [Hun' <-].
  by apply IH.
Qed.

(** X7: a camera grant that arrives after the video element is gone
    leaks the stream.  If [getUserMedia] fulfils while [videoRef.current]
    is null, the assignment to [srcObject] throws, the [catch] reports a
    camera error, and the stream just obtained is attached to no element;
    whatever happens afterwards, none of its tracks is ever stopped. *)
Theorem late_grant_leaks_stream storage evs0 env rest n evs :
  let s := run evs0 (mount storage) in
  videoRef (refs s) = None →
  pendingCamera (io s) = env :: rest →
  let s' := step (CameraGranted n) s in
  let st := length (streams (dom s)) in
  error (hooks s') = Some camera_error
  ∧ current_stream s' = None
  ∧ streams (dom s') !! st = Some (replicate n TrackLive)
  ∧ streams (dom (run evs s')) !! st = Some (replicate n TrackLive).
Proof.
  intros s Hv Hp s' st.
  pose proof (run_sources_exist evs0 (mount storage)
                (mount_sources_exist storage)) as Hsrc.
  fold s in Hsrc.
  assert (Hs' : s' = setError (Some camera_error)
                  (upd_streams (λ l, l ++ [replicate n TrackLive])
                     (set_pendingCamera rest s))).
  { unfold s', step, startVideo_granted. rewrite Hp. cbn. by rewrite Hv. }
  assert (Hlook : streams (dom s') !! st = Some (replicate n TrackLive)).
  { rewrite Hs'. cbn. unfold st. by rewrite lookup_app_r, Nat.sub_diag. }
  assert (Hun : unattached st s').
  { rewrite Hs'. split; cbn.
    - rewrite length_app. cbn. unfold st. lia.
    - eapply Forall_impl; [exact Hsrc|]. intros ve Hve Heq.
      specialize (Hve _ Heq). unfold st in Hve. lia. }
  split; [by rewrite Hs'|].
  split; [rewrite Hs'; unfold current_stream; cbn; by rewrite Hv|].
  split; [done|]. by rewrite (run_unattached st evs s' Hun).
Qed.

Lemma late_grant_leaks_stream_witness :
  let evs0 := [ModelsLoaded; RunEffects; ClickToggleCamera; SyncRefs] in
  let env := {| cameraOn := true; isRecording := false; videoBlobUrl := None;
                loadingModels := false; error := None |} in
  let evs := [RunEffects; ClickToggleCamera; SyncRefs; ModelsLoaded;
              RunEffects; CameraGranted 1; RunEffects] in
  let s := run evs0 (mount ∅) in
  let s' := step (CameraGranted 2) s in
  let st := length (streams (dom s)) in
  videoRef (refs s) = None
  ∧ pendingCamera (io s) = [env]
  ∧ error (hooks s') = Some camera_error
  ∧ current_stream s' = None
  ∧ streams (dom s') !! st = Some (replicate 2 TrackLive)
  ∧ streams (dom (run evs s')) !! st = Some (replicate 2 TrackLive).
Proof.
  intros evs0 env evs s s' st.
  split; [reflexivity|]. split; [reflexivity|].
  exact (late_grant_leaks_stream ∅ evs0 env [] 2 evs eq_refl eq_refl).
Defined.

End Lifecycle.

(** ** Recording pipeline, continued *)

Section RecordingMore.

Implicit Types (s : State) (env : Hooks) (ev : Event) (evs : list Event).

Lemma step_recording_excludes_artifact ev s :
  (isRecording (hooks s) = true → videoBlobUrl (hooks s) = None) →
  isRecording (hooks (step ev s)) = true →
  videoBlobUrl (hooks (step ev s)) = None.
Proof.
  intros Hinv.
  destruct (isRecording (hooks s)) eqn:Hrec;
    [specialize (Hinv eq_refl)|clear Hinv];
    destruct ev; unfold_callbacks; repeat case_match; cbn;
    rewrite ?Hrec; try done; congruence.
Qed.

(** X8: while a recording is in progress there is no artifact
    reference, in every state the component can reach from its first
    commit and whatever the stored recording was.  (So the Download
    button is disabled during a recording already because
    [videoBlobUrl] is null.) *)
Theorem recording_excludes_artifact storage evs :
  let s := run evs (mount storage) in
  isRecording (hooks s) = true →
  videoBlobUrl (hooks s) = None ∧ download_disabled s = true.
Proof.
  intros s Hrec.
  assert (H : videoBlobUrl (hooks s) = None).
  { revert Hrec. unfold s.
    assert (Hm : isRecording (hooks (mount storage)) = true →
                 videoBlobUrl (hooks (mount storage)) = None).
    { unfold mount, load_saved_video. by repeat case_match. }
    revert Hm. generalize (mount storage).
    induction evs as [|ev evs IH]; intros s0 Hm; [done|].
    rewrite run_cons. apply IH. by apply step_recording_excludes_artifact. }
  split; [done|]. unfold download_disabled. by rewrite H.
Qed.

Lemma recording_excludes_artifact_witness :
  let chunk := {| blob_bytes := [Byte.x61]; blob_type := RECORDING_TYPE |} in
  let evs := [ModelsLoaded; RunEffects; CameraGranted 1; ModelsLoaded;
              ClickStart Started; DataAvailable chunk; ReaderLoadEnd true] in
  let s := run evs (mount {[STORAGE_KEY := "data:video/webm;base64,YQ=="]}) in
  videoBlobUrl (hooks (mount {[STORAGE_KEY := "data:video/webm;base64,YQ=="]}))
  = Some "data:video/webm;base64,YQ=="
  ∧ isRecording (hooks s) = true
  ∧ videoBlobUrl (hooks s) = None
  ∧ download_disabled s = true.
Proof.
  intros chunk evs s. split; [vm_compute; reflexivity|].
  assert (Hrec : isRecording (hooks s) = true) by (vm_compute; reflexivity).
  split; [exact Hrec|].
  exact (recording_excludes_artifact _ evs Hrec).
Defined.

Lemma recorder_stopped_frame s :
  hooks (recorder_stopped s) = hooks s
  ∧ refs (recorder_stopped s) = refs s
  ∧ io (recorder_stopped s) = io s.
Proof. unfold recorder_stopped, recorder_stop. by repeat case_match. Qed.

Lemma readAsDataURL_truthy (b : Blob) : truthy (Some (readAsDataURL b)) = true.
Proof. reflexivity. Qed.

Lemma mount_videoBlobUrl storage :
  videoBlobUrl (hooks (mount storage))
  = if truthy (storage !! STORAGE_KEY) then storage !! STORAGE_KEY else None.
Proof.
  unfold mount, load_saved_video. cbn.
  by destruct (storage !! STORAGE_KEY) as [[|c u]|].
Qed.

(** X9: a stored recording survives a reload of the page.  When the
    write of a finalized artifact to [localStorage] succeeds, the entry
    under the fixed key is the artifact's data URL (replacing what was
    there) and no error is set; a component mounted on that storage starts
    with this data URL as its artifact reference and with the Download
    button enabled.  With no entry, or an empty one, it starts with no
    artifact reference and the button disabled. *)
Theorem stored_recording_is_restored s :
  pendingReaders (io s) = [] →
  let artifact := new_Blob (recordedChunks (refs s)) RECORDING_TYPE in
  let s' := run [RecorderStopped; ReaderLoadEnd true] s in
  localStorage (io s')
  = <[STORAGE_KEY := readAsDataURL artifact]> (localStorage (io s))
  ∧ error (hooks s') = error (hooks s)
  ∧ videoBlobUrl (hooks (mount (localStorage (io s'))))
    = Some (readAsDataURL artifact)
  ∧ download_disabled (mount (localStorage (io s'))) = false
  ∧ (∀ storage, truthy (storage !! STORAGE_KEY) = false →
       videoBlobUrl (hooks (mount storage)) = None
       ∧ download_disabled (mount storage) = true).
Proof.
  intros Hp artifact s'.
  assert (Hls : localStorage (io s')
    = <[STORAGE_KEY := readAsDataURL artifact]> (localStorage (io s))).
  { unfold s', run. cbn [foldl]. unfold step at 1. unfold step.
    destruct (recorder_stopped_frame s) as (_ & Hr & Hio).
    rewrite handleStop_pendingReaders, Hio, Hp. cbn.
    unfold artifact. by rewrite Hr, Hio. }
  assert (Hurl : videoBlobUrl (hooks (mount (localStorage (io s'))))
                 = Some (readAsDataURL artifact)).
  { rewrite mount_videoBlobUrl, Hls, lookup_insert_eq.
    by rewrite readAsDataURL_truthy. }
  split; [done|].
  split.
  { unfold s', run. cbn [foldl]. unfold step at 1. unfold step.
    destruct (recorder_stopped_frame s) as (Hh & _ & Hio).
    rewrite handleStop_pendingReaders, Hio, Hp. cbn. by rewrite Hh. }
  split; [done|].
  split.
  { unfold download_disabled. rewrite Hurl, readAsDataURL_truthy.
    unfold mount, load_saved_video. by repeat case_match. }
  intros storage Hnone.
  assert (H : videoBlobUrl (hooks (mount storage)) = None)
    by (by rewrite mount_videoBlobUrl, Hnone).
  split; [done|]. unfold download_disabled. by rewrite H.
Qed.

Lemma stored_recording_is_restored_witness :
  let chunk := {| blob_bytes := [Byte.x61; Byte.x62; Byte.x63];
                  blob_type := RECORDING_TYPE |} in
  let s := run [DataAvailable chunk] detecting in
  let artifact := new_Blob (recordedChunks (refs s)) RECORDING_TYPE in
  let s' := run [RecorderStopped; ReaderLoadEnd true] s in
  pendingReaders (io s) = []
  ∧ readAsDataURL artifact = "data:video/webm; codecs=vp8;base64,YWJj"
  ∧ localStorage (io s')
    = <[STORAGE_KEY := readAsDataURL artifact]> (localStorage (io s))
  ∧ videoBlobUrl (hooks (mount (localStorage (io s'))))
    = Some (readAsDataURL artifact)
  ∧ download_disabled (mount (localStorage (io s'))) = false.
Proof.
  intros chunk s artifact s'.
  destruct (stored_recording_is_restored s eq_refl)
    as (Hls & _ & Hurl & Hdl & _).
  split; [reflexivity|]. split; [vm_compute; reflexivity|].
  split; [exact Hls|]. split; [exact Hurl|exact Hdl].
Defined.

Lemma run_effects_io s :
  localStorage (io (run_effects s)) = localStorage (io s)
  ∧ downloads (io (run_effects s)) = downloads (io s)
  ∧ objectURLs (io (run_effects s)) = objectURLs (io s)
  ∧ pendingReaders (io (run_effects s)) = pendingReaders (io s).
Proof.
  unfold run_effects. destruct (lastEffect s) as [prev|]; [|done].
  case_bool_decide; [done|]. cbn.
  unfold effect_body, startVideo.
  destruct (stop_stream_frame (loadModels (effect_cleanup prev s)))
    as (_ & _ & Hio & _).
  destruct (effect_cleanup_frame prev s) as (_ & _ & Hio' & _).
  repeat case_match; cbn; rewrite ?Hio; cbn; rewrite ?Hio'; done.
Qed.

Lemma step_localStorage_other ev s (k : string) :
  k ≠ STORAGE_KEY →
  localStorage (io (step ev s)) !! k = localStorage (io s) !! k.
Proof.
  intros Hk. destruct ev;
    try (unfold_callbacks; repeat case_match; cbn; done).
  unfold step, reader_onloadend. repeat case_match; cbn; try done.
  by rewrite lookup_insert_ne.
Qed.

Lemma step_localStorage_kept ev s :
  is_Some (localStorage (io s) !! STORAGE_KEY) →
  is_Some (localStorage (io (step ev s)) !! STORAGE_KEY).
Proof.
  intros Hk. destruct ev;
    try (unfold_callbacks; repeat case_match; cbn; done).
  unfold step, reader_onloadend. repeat case_match; cbn; try done.
  by rewrite lookup_insert_eq.
Qed.

(** X10: the component writes [localStorage] under one key only.  Over
    any sequence of events every other key keeps its value (or stays
    absent), and the entry under the fixed key, once present, is never
    removed. *)
Theorem only_the_fixed_key_is_written evs s (k : string) :
  (k ≠ STORAGE_KEY →
   localStorage (io (run evs s)) !! k = localStorage (io s) !! k)
  ∧ (is_Some (localStorage (io s) !! STORAGE_KEY) →
     is_Some (localStorage (io (run evs s)) !! STORAGE_KEY)).
Proof.
  split.
  - intros Hk. revert s. induction evs as [|ev evs IH]; intros s; [done|].
    by rewrite run_cons, IH, step_localStorage_other.
  - revert s. induction evs as [|ev evs IH]; intros s Hs; [done|].
    rewrite run_cons. by apply IH, step_localStorage_kept.
Qed.

Lemma only_the_fixed_key_is_written_witness :
  let storage : gmap string string :=
    <["theme" := "dark"]> {[STORAGE_KEY := "data:video/webm;base64,YQ=="]} in
  let evs := [ModelsLoaded; RecorderStopped; ReaderLoadEnd true;
              RecorderStopped; ReaderLoadEnd false] in
  "theme" ≠ STORAGE_KEY
  ∧ is_Some (localStorage (io (mount storage)) !! STORAGE_KEY)
  ∧ localStorage (io (mount storage)) !! "theme" = Some "dark"
  ∧ localStorage (io (run evs (mount storage))) !! "theme"
    = localStorage (io (mount storage)) !! "theme"
  ∧ is_Some (localStorage (io (run evs (mount storage))) !! STORAGE_KEY).
Proof.
  intros storage evs.
  assert (Hk : "theme" ≠ STORAGE_KEY) by discriminate.
  assert (Hs : is_Some (localStorage (io (mount storage)) !! STORAGE_KEY)).
  { exists "data:video/webm;base64,YQ==". vm_compute. reflexivity. }
  destruct (only_the_fixed_key_is_written evs (mount storage) "theme")
    as [Hother _].
  destruct (only_the_fixed_key_is_written evs (mount storage) STORAGE_KEY)
    as [_ Hkept].
  split; [exact Hk|]. split; [exact Hs|].
  split; [vm_compute; reflexivity|].
  split; [exact (Hother Hk)|exact (Hkept Hs)].
Defined.

Lemma step_downloads ev s :
  downloads (io s) `prefix_of` downloads (io (step ev s))
  ∧ (is_ClickDownload ev = false →
     downloads (io (step ev s)) = downloads (io s)).
Proof.
  destruct ev; try (unfold_callbacks; repeat case_match; cbn; done).
  unfold step, downloadVideo. repeat case_match; cbn;
    (split; [try done; by apply prefix_app_r|done]).
Qed.

(** X11: nothing is downloaded behind the user's back.  The list of
    downloads only grows at its end, and over events that contain no
    click on the Download button it does not change at all. *)
Theorem downloads_only_on_click evs s :
  downloads (io s) `prefix_of` downloads (io (run evs s))
  ∧ (forallb (λ ev, negb (is_ClickDownload ev)) evs = true →
     downloads (io (run evs s)) = downloads (io s)).
Proof.
  split.
  - revert s. induction evs as [|ev evs IH]; intros s; [done|].
    rewrite run_cons. etrans; [apply step_downloads|apply IH].
  - revert s. induction evs as [|ev evs IH]; intros s Hevs; [done|].
    cbn in Hevs. apply andb_true_iff in Hevs as [Hev Hevs].
    apply negb_true_iff in Hev.
    rewrite run_cons, IH by done. by apply step_downloads.
Qed.

Lemma downloads_only_on_click_witness :
  let evs := [RecorderStopped; ReaderLoadEnd true; RunEffects;
              ClickToggleCamera; SyncRefs; RunEffects; ModelsLoaded] in
  download_disabled (run evs detecting) = false
  ∧ downloads (io (run evs detecting)) = downloads (io detecting).
Proof.
  intros evs. split; [vm_compute; reflexivity|].
  exact (proj2 (downloads_only_on_click evs detecting) eq_refl).
Defined.

(** X12: a start that fails.  With a stream attached, when the
    [MediaRecorder] constructor or its [start()] throws, the recording
    flag keeps its value, the error slot holds the recording error, the
    Start button is disabled from then on, and streams, video elements
    and timers are untouched.  If the constructor threw, the recorder ref
    and the recorders are as before; if [start()] threw, the ref already
    points to the new recorder, in whichever state the browser left it. *)
Theorem startRecording_failure s st :
  current_stream s = Some st →
  let failed o := startRecording o s in
  (∀ o, o ≠ Started →
     isRecording (hooks (failed o)) = isRecording (hooks s)
     ∧ error (hooks (failed o)) = Some recording_error
     ∧ start_disabled (failed o) = true
     ∧ streams (dom (failed o)) = streams (dom s)
     ∧ videos (dom (failed o)) = videos (dom s)
     ∧ timers (dom (failed o)) = timers (dom s))
  ∧ mediaRecorderRef (refs (failed ConstructorThrows))
    = mediaRecorderRef (refs s)
  ∧ recorders (dom (failed ConstructorThrows)) = recorders (dom s)
  ∧ (∀ recording,
       mediaRecorderRef (refs (failed (StartThrows recording)))
       = Some (length (recorders (dom s)))
       ∧ recorders (dom (failed (StartThrows recording)))
         = recorders (dom s)
           ++ [{| rec_stream := st; rec_recording := recording |}]).
Proof.
  intros Hs failed. unfold failed, startRecording. rewrite Hs.
  split; [|done].
  intros o Ho. unfold start_disabled.
  destruct o; [| |done]; cbn;
    by destruct (isRecording (hooks s)), (loadingModels (hooks s)).
Qed.

(** [start()] throws and leaves the recorder in the state ["recording"]. *)
Lemma startRecording_failure_witness :
  current_stream detecting = Some 0
  ∧ error (hooks (startRecording (StartThrows true) detecting))
    = Some recording_error
  ∧ isRecording (hooks (startRecording (StartThrows true) detecting)) = false
  ∧ recorders (dom (startRecording (StartThrows true) detecting))
    = [{| rec_stream := 0; rec_recording := true |}].
Proof.
  destruct (startRecording_failure detecting 0 eq_refl)
    as (Hall & _ & _ & Hrec).
  destruct (Hall (StartThrows true)) as (Hr & He & _); [discriminate|].
  destruct (Hrec true) as [_ Hrecs].
  split; [reflexivity|]. split; [exact He|].
  split; [rewrite Hr; reflexivity|]. rewrite Hrecs. reflexivity.
Defined.



Lemma effect_body_hooks env s :
  isRecording (hooks (effect_body env s)) = isRecording (hooks s)
  ∧ videoBlobUrl (hooks (effect_body env s)) = videoBlobUrl (hooks s)
  ∧ error (hooks (effect_body env s)) = error (hooks s)
  ∧ cameraOn (hooks (effect_body env s)) = cameraOn (hooks s)
  ∧ loadingModels (hooks (effect_body env s)) = true.
Proof.
  unfold effect_body, startVideo.
  destruct (stop_stream_frame (loadModels s)) as (Hh & _).
  repeat case_match; cbn; rewrite ?Hh; done.
Qed.

Lemma effect_body_gate_open env s :
  camera_gate env = true →
  dom (effect_body env s) = dom s ∧ refs (effect_body env s) = refs s.
Proof.
  unfold camera_gate, effect_body, startVideo. intros ->.
  by repeat case_match.
Qed.

(** X14: the cleanup stops the recorder exactly when the effect last ran
    during a recording.  When a dependency changed and the effect is
    re-run, the recorder behind the ref becomes inactive if
    [isRecording] was true in the render the effect last ran for, and is
    left alone otherwise; either way the recording flag, the chunk
    sequence and the artifact reference are not touched by the re-run. *)
Theorem cleanup_stops_recorder_of_its_render s prev r :
  lastEffect s = Some prev →
  deps prev ≠ deps (hooks s) →
  mediaRecorderRef (refs s) = Some r →
  let s' := step RunEffects s in
  recorders (dom s')
  = (if isRecording prev
     then alter stop_recorder_state r (recorders (dom s))
     else recorders (dom s))
  ∧ isRecording (hooks s') = isRecording (hooks s)
  ∧ videoBlobUrl (hooks s') = videoBlobUrl (hooks s)
  ∧ recordedChunks (refs s') = recordedChunks (refs s)
  ∧ mediaRecorderRef (refs s') = Some r.
Proof.
  intros Hlast Hdeps Href s'.
  assert (Hs' : s' = set_lastEffect (Some (hooks s))
                       (effect_body (hooks s) (effect_cleanup prev s))).
  { unfold s', step, run_effects. rewrite Hlast.
    by rewrite bool_decide_eq_false_2. }
  destruct (effect_body_frame (hooks s) (effect_cleanup prev s))
    as (Hbr & _ & _ & Hbrec & _).
  destruct (effect_body_hooks (hooks s) (effect_cleanup prev s))
    as (Hbi & Hbu & _).
  destruct (effect_cleanup_frame prev s) as (Hch & Hcr & _).
  rewrite Hs'. cbn. rewrite Hbrec, Hbi, Hbu, Hbr, Hch, Hcr.
  by rewrite effect_cleanup_recorders, Href.
Qed.

Lemma cleanup_stops_recorder_of_its_render_witness :
  let s := run [ModelsLoaded; ClickStart Started; RunEffects;
                CameraGranted 1; ClickToggleCamera] detecting in
  let prev := {| cameraOn := true; isRecording := true;
                 videoBlobUrl := None; loadingModels := false;
                 error := None |} in
  lastEffect s = Some prev
  ∧ mediaRecorderRef (refs s) = Some 0
  ∧ recorders (dom s) = [{| rec_stream := 0; rec_recording := true |}]
  ∧ isRecording prev = true
  ∧ recorders (dom (step RunEffects s))
    = (if isRecording prev
       then alter stop_recorder_state 0 (recorders (dom s))
       else recorders (dom s))
  ∧ isRecording (hooks (step RunEffects s)) = isRecording (hooks s).
Proof.
  intros s prev.
  assert (Hdeps : deps prev ≠ deps (hooks s)) by (vm_compute; discriminate).
  destruct (cleanup_stops_recorder_of_its_render s prev 0
              eq_refl Hdeps eq_refl) as (Hrec & Hi & _).
  split; [reflexivity|]. split; [reflexivity|]. split; [reflexivity|].
  split; [reflexivity|]. split; [exact Hrec|exact Hi].
Defined.

Lemma startRecording_started_frame s st :
  current_stream s = Some st →
  lastEffect (startRecording Started s) = lastEffect s
  ∧ streams (dom (startRecording Started s)) = streams (dom s)
  ∧ videos (dom (startRecording Started s)) = videos (dom s)
  ∧ current_stream (startRecording Started s) = Some st.
Proof.
  intros Hs. unfold startRecording. rewrite Hs. by cbn.
Qed.

(** X15: starting a recording releases the stream being recorded.  The
    effect depends on [isRecording]; when a permitted click on Start has
    succeeded and React re-runs the effect, the cleanup of the previous
    render (which was not recording) stops every track of the stream the
    new recorder records and clears the source, while the recorder itself
    is left in the recording state and the recording flag stays set. *)
Theorem start_releases_recorded_stream s prev st :
  lastEffect s = Some prev →
  isRecording prev = false →
  start_disabled s = false →
  current_stream s = Some st →
  let s' := run [ClickStart Started; RunEffects] s in
  isRecording (hooks s') = true
  ∧ recorders (dom s') !! length (recorders (dom s))
    = Some {| rec_stream := st; rec_recording := true |}
  ∧ streams (dom s') !! st = stop_tracks <$> streams (dom s) !! st
  ∧ current_stream s' = None.
Proof.
  intros Hlast Hprev Hen Hs s'.
  destruct (startRecording_started s st Hs) as (Hh1 & Hr1 & Hrec1).
  destruct (startRecording_started_frame s st Hs) as (Hl1 & Hst1 & Hv1 & Hcs1).
  set (s1 := startRecording Started s) in *.
  assert (Hgate : camera_gate (hooks s1) = true).
  { unfold start_disabled in Hen. rewrite Hh1. unfold camera_gate. cbn.
    destruct (isRecording (hooks s)), (loadingModels (hooks s)),
      (truthy (error (hooks s))), (cameraOn (hooks s)); done. }
  assert (Hs' : s' = set_lastEffect (Some (hooks s1))
                       (effect_body (hooks s1) (effect_cleanup prev s1))).
  { unfold s', run. cbn [foldl]. unfold step at 2. rewrite Hen. fold s1.
    unfold step, run_effects. rewrite Hl1, Hlast.
    rewrite bool_decide_eq_false_2; [done|].
    unfold deps. rewrite Hh1. cbn. rewrite Hprev. intros [=]. }
  destruct (effect_body_gate_open (hooks s1) (effect_cleanup prev s1) Hgate)
    as [Hbd Hbr].
  destruct (effect_body_hooks (hooks s1) (effect_cleanup prev s1))
    as (Hbi & _).
  destruct (effect_cleanup_frame prev s1) as (Hch & _ & _ & _ & Hcst & _).
  assert (Hdom : dom s' = dom (effect_cleanup prev s1)) by (by rewrite Hs').
  split; [rewrite Hs'; cbn; by rewrite Hbi, Hch, Hh1|].
  split.
  { rewrite Hdom, effect_cleanup_recorders, Hprev.
    destruct (mediaRecorderRef (refs s1)); rewrite Hrec1;
      by rewrite lookup_app_r, Nat.sub_diag. }
  split.
  { rewrite Hdom, Hcst, (stop_stream_tracks s1 st Hcs1). by rewrite Hst1. }
  pose proof (effect_cleanup_releases prev s1) as Hrel.
  unfold current_stream in *. rewrite Hdom.
  replace (refs s') with (refs (effect_cleanup prev s1)); [done|].
  by rewrite Hs'.
Qed.

Lemma start_releases_recorded_stream_witness :
  let s := run [ModelsLoaded] detecting in
  let prev := {| cameraOn := true; isRecording := false;
                 videoBlobUrl := None; loadingModels := true;
                 error := None |} in
  let s' := run [ClickStart Started; RunEffects] s in
  lastEffect s = Some prev
  ∧ start_disabled s = false
  ∧ current_stream s = Some 0
  ∧ streams (dom s) !! 0 = Some [TrackLive]
  ∧ isRecording (hooks s') = true
  ∧ recorders (dom s') !! length (recorders (dom s))
    = Some {| rec_stream := 0; rec_recording := true |}
  ∧ streams (dom s') !! 0 = stop_tracks <$> streams (dom s) !! 0
  ∧ current_stream s' = None.
Proof.
  intros s prev s'.
  split; [reflexivity|]. split; [reflexivity|]. split; [reflexivity|].
  split; [reflexivity|].
  exact (start_releases_recorded_stream s prev 0
           eq_refl eq_refl eq_refl eq_refl).
Defined.

End RecordingMore.

(** ** Camera requests and model loads, continued *)

Section Requests.

Implicit Types (s : State) (env : Hooks) (ev : Event) (evs : list Event).

(** X16: the effect asks for the camera on every re-run that passes its
    test.  When a dependency changed, the re-run calls [getUserMedia]
    exactly if models are loaded, no error is set, the camera is on and
    both refs are attached, and it does so without looking at requests
    still pending: the new request is queued behind them.  Otherwise the
    pending requests are as before. *)
Theorem effect_requests_camera s prev :
  lastEffect s = Some prev →
  deps prev ≠ deps (hooks s) →
  pendingCamera (io (step RunEffects s))
  = if camera_gate (hooks s) && bool_decide (is_Some (videoRef (refs s)))
       && bool_decide (is_Some (canvasRef (refs s)))
    then pendingCamera (io s) ++ [hooks s]
    else pendingCamera (io s).
Proof.
  intros Hlast Hdeps. unfold step, run_effects. rewrite Hlast.
  rewrite bool_decide_eq_false_2 by done. cbn.
  rewrite effect_body_pendingCamera.
  destruct (effect_cleanup_frame prev s) as (_ & -> & -> & _).
  destruct (camera_gate (hooks s)); [|done].
  by destruct (videoRef (refs s)), (canvasRef (refs s)).
Qed.

(** Two requests in flight: the second re-run that passes the test comes
    before the first grant. *)
Lemma effect_requests_camera_witness :
  let s := run [ModelsLoaded; RunEffects; RunEffects; ModelsLoaded]
             (mount ∅) in
  let prev := {| cameraOn := true; isRecording := false;
                 videoBlobUrl := None; loadingModels := true;
                 error := None |} in
  lastEffect s = Some prev
  ∧ length (pendingCamera (io s)) = 1
  ∧ pendingCamera (io (step RunEffects s)) = pendingCamera (io s) ++ [hooks s].
Proof.
  intros s prev.
  assert (Hdeps : deps prev ≠ deps (hooks s)) by (vm_compute; discriminate).
  split; [reflexivity|]. split; [reflexivity|].
  rewrite (effect_requests_camera s prev eq_refl Hdeps). reflexivity.
Defined.

Lemma step_fetch_groups ev s k :
  fetches (io s) = List.concat (replicate k MODEL_NETS) →
  pendingLoads (io s) ≤ k →
  ∃ k', k ≤ k'
        ∧ fetches (io (step ev s)) = List.concat (replicate k' MODEL_NETS)
        ∧ pendingLoads (io (step ev s)) ≤ k'.
Proof.
  intros Hf Hp.
  assert (Hmore : fetches (io s) ++ MODEL_NETS
                  = List.concat (replicate (S k) MODEL_NETS)).
  { rewrite Hf. clear. induction k as [|k IH]; [done|].
    cbn [replicate List.concat]. rewrite <- app_assoc. f_equal. exact IH. }
  destruct ev;
    try (exists k; unfold_callbacks; repeat case_match; cbn in *;
         repeat split; try done; lia).
  unfold step, run_effects.
  destruct (lastEffect s) as [prev|]; [|by exists k].
  case_bool_decide; [by exists k|]. exists (S k). cbn.
  destruct (effect_body_loads (hooks s) (effect_cleanup prev s)) as [-> ->].
  destruct (effect_cleanup_frame prev s) as (_ & _ & -> & _).
  repeat split; [lia|done|lia].
Qed.

(** X17: loads come in whole groups.  In every state reached from the
    first commit the fetches issued so far are some number [k ≥ 1] of
    repetitions of the four networks in their fixed order, and at most
    [k] loads are pending. *)
Theorem fetches_come_in_groups storage evs :
  ∃ k, 1 ≤ k
       ∧ fetches (io (run evs (mount storage)))
         = List.concat (replicate k MODEL_NETS)
       ∧ pendingLoads (io (run evs (mount storage))) ≤ k.
Proof.
  assert (Hm : ∃ k, 1 ≤ k
             ∧ fetches (io (mount storage)) = List.concat (replicate k MODEL_NETS)
             ∧ pendingLoads (io (mount storage)) ≤ k).
  { exists 1. unfold mount, load_saved_video. by repeat case_match. }
  revert Hm. generalize (mount storage).
  induction evs as [|ev evs IH]; intros s Hs; [done|].
  rewrite run_cons. apply IH.
  destruct Hs as (k & Hk & Hf & Hp).
  destruct (step_fetch_groups ev s k Hf Hp) as (k' & Hkk & Hf' & Hp').
  exists k'. repeat split; [lia|done|done].
Qed.

End Requests.

(** ** Finalizing without data *)

Section EmptyRecording.

Implicit Types (s : State) (evs : list Event).

(** X18: a recording without data is finalized like any other.  If every
    chunk the encoder emitted during the session was empty (or none was
    emitted), the stop event still creates an artifact: a blob of zero
    bytes under a new object URL, which becomes the artifact reference;
    its data URL, the value a successful write stores, has an empty
    payload. *)
Theorem empty_recording_is_finalized s evs :
  current_stream s ≠ None →
  forallb (λ ev, negb (session_boundary ev)) evs = true →
  Forall (λ c, blob_size c = 0) (emitted evs) →
  let s1 := run evs (startRecording Started s) in
  let s2 := handleStop s1 in
  recordedChunks (refs s1) = []
  ∧ videoBlobUrl (hooks s2) = Some (next_object_url s1)
  ∧ objectURLs (io s2) !! next_object_url s1
    = Some {| blob_bytes := []; blob_type := RECORDING_TYPE |}
  ∧ readAsDataURL {| blob_bytes := []; blob_type := RECORDING_TYPE |}
    = "data:video/webm; codecs=vp8;base64,".
Proof.
  intros Hsrc Hevs Hempty s1 s2.
  destruct (current_stream s) as [stream|] eqn:Hs; [clear Hsrc|done].
  destruct (startRecording_started s stream Hs) as (_ & Hrefs & _).
  assert (Hchunks : recordedChunks (refs s1) = []).
  { unfold s1. rewrite run_recordedChunks, Hrefs by done. cbn.
    unfold nonempty_chunks. clear -Hempty.
    induction Hempty as [|c l Hc _ IH]; [done|].
    rewrite filter_cons_False by lia. exact IH. }
  split; [done|]. split; [reflexivity|].
  split; [|reflexivity].
  unfold s2. rewrite handleStop_objectURL, Hchunks. reflexivity.
Qed.

Lemma empty_recording_is_finalized_witness :
  let empty := {| blob_bytes := []; blob_type := RECORDING_TYPE |} in
  let evs := [DataAvailable empty; Tick 0; ClickStop; DataAvailable empty] in
  let s1 := run evs (startRecording Started detecting) in
  current_stream detecting ≠ None
  ∧ Forall (λ c, blob_size c = 0) (emitted evs)
  ∧ recordedChunks (refs s1) = []
  ∧ videoBlobUrl (hooks (handleStop s1)) = Some (next_object_url s1)
  ∧ objectURLs (io (handleStop s1)) !! next_object_url s1 = Some empty.
Proof.
  intros empty evs s1.
  assert (Hsrc : current_stream detecting ≠ None) by (vm_compute; discriminate).
  assert (Hempty : Forall (λ c, blob_size c = 0) (emitted evs))
    by (repeat constructor).
  destruct (empty_recording_is_finalized detecting evs Hsrc eq_refl Hempty)
    as (Hc & Hu & Ho & _).
  split; [exact Hsrc|]. split; [exact Hempty|]. split; [exact Hc|].
  split; [exact Hu|exact Ho].
Defined.

End EmptyRecording.
